(** * TradeSmartWS: the streaming connection manager of tradesmartapi-js

    A shallow embedding of the class [TradeSmartWS] (the websocket manager
    that imports [WebSocket] from "ws") and the properties of its
    connection life cycle, heartbeat, reconnect policy, inbound dispatch
    and subscribe call.

    The class is event driven: its methods and the handlers it installs on
    the transport run to completion one at a time on the JavaScript event
    loop.  The embedding therefore is a step function on a [World]: the
    private fields of the manager, the transports created so far, the
    pending timers, a millisecond clock and the trace of observable
    effects. *)

From Stdlib Require Import String List Arith Bool ZArith Lia.
From stdpp Require Import list strings pretty.
Import ListNotations.

Local Open Scope nat_scope.

(** ** JavaScript values that cross the boundary *)

(** The result of [JSON.parse] on a text frame, and the argument of
    [JSON.stringify] on the way out. An object is its list of fields (keys
    unique, as [JSON.parse] leaves them); a number is kept as an integer,
    the manager never reads one. *)
#[warnings="-register-all"]
Inductive json : Type :=
  | JNull
  | JBool (b : bool)
  | JNum (n : Z)
  | JStr (s : string)
  | JArr (items : list json)
  | JObj (fields : list (string * json)).

Inductive JsError : Type :=
  | SyntaxError (msg : string)
  | TypeError (msg : string)
  | Error (msg : string).

(** How a synchronous handler or method ends. *)
Inductive Completion : Type :=
  | Normal
  | Throw (e : JsError).

(** What the promise returned by an [async] method without [await] holds
    when the call returns. *)
Inductive AsyncResult : Type :=
  | Resolved
  | RejectedWith (e : JsError).

(** A callback slot of the manager: the field is declared without an
    initialiser, hence starts [undefined]; the caller may store a function
    (named here by a number) or [null]. *)
Inductive JsCallback : Type :=
  | JsUndefined
  | JsNull
  | JsFunction (f : nat).

(** [typedef Instrument] of TradeSmart_Instruments.js: the two properties
    [subscribe] reads. *)
Record Instrument : Type := {
  Exchange : string;
  Token : string
}.

(** The object handed to the constructor, as the three properties the
    constructor reads off it: each is a string, or [None] when the object
    has no such property and the read gives [undefined]. *)
Record SessionDetails : Type := {
  api_uid : option string;
  api_actid : option string;
  api_susertoken : option string
}.

(** ** The transport ("ws") *)

Inductive ReadyState : Type := CONNECTING | OPEN | CLOSING | CLOSED.

Inductive PromiseState : Type := Pending | Fulfilled | Rejected.

(** One [new WebSocket(...)] together with the promise of the [connect()]
    call that made it. [caught] tells that the call came from the reconnect
    timer, which chains [.catch(err => console.error("Reconnect failed:", err))]. *)
Record Sock : Type := {
  readyState : ReadyState;
  promise : PromiseState;
  caught : bool
}.

Definition set_readyState (r : ReadyState) (s : Sock) : Sock :=
  {| readyState := r; promise := promise s; caught := caught s |}.

Definition set_promise (p : PromiseState) (s : Sock) : Sock :=
  {| readyState := readyState s; promise := p; caught := caught s |}.

(** ** Timers *)

Inductive TimerKind : Type :=
  | ReconnectTimer                 (* the setTimeout of #attemptReconnect *)
  | HeartBeatTimer (period : nat). (* the setInterval of #setHeartBeat *)

Record Timer : Type := {
  handle : nat;
  callback : TimerKind;
  due : nat
}.

(** Node runs a timer of delay below 1 ms after 1 ms. *)
Definition timer_delay (ms : nat) : nat := Nat.max 1 ms.

(** ** Observable effects *)

Inductive Obs : Type :=
  | NewWebSocket (i : nat) (url : string)
  | SocketSend (i : nat) (frame : json)   (* socket.send(JSON.stringify(frame)) *)
  | SocketClose (i : nat)                 (* socket.close() *)
  | DataCallback (f : nat) (data : json)
  | OrderCallback (f : nat) (data : json)
  | ConsoleLog (msg : string)
  | ConsoleError (msg : string).

(** ** The manager's private fields *)

Record TradeSmartWS : Type := {
  socket : option nat;
  reconnectInterval : nat;
  reconnectAttempts : nat;
  currentReconnectAttempts : nat;
  heartBeatInterval : option nat;
  heartBeatDuration : nat;
  debug : bool;
  uid : option string;
  actid : option string;
  susertoken : option string;
  socketConnecting : bool;
  disconnectedManually : bool;
  webSocketURL : string;
  onDataCallback : JsCallback;
  onOrderCallback : JsCallback
}.

Definition set_socket (v : option nat) (m : TradeSmartWS) : TradeSmartWS :=
  {| socket := v;
     reconnectInterval := reconnectInterval m;
     reconnectAttempts := reconnectAttempts m;
     currentReconnectAttempts := currentReconnectAttempts m;
     heartBeatInterval := heartBeatInterval m;
     heartBeatDuration := heartBeatDuration m;
     debug := debug m;
     uid := uid m; actid := actid m; susertoken := susertoken m;
     socketConnecting := socketConnecting m;
     disconnectedManually := disconnectedManually m;
     webSocketURL := webSocketURL m;
     onDataCallback := onDataCallback m;
     onOrderCallback := onOrderCallback m |}.

Definition set_currentReconnectAttempts (v : nat) (m : TradeSmartWS) : TradeSmartWS :=
  {| socket := socket m;
     reconnectInterval := reconnectInterval m;
     reconnectAttempts := reconnectAttempts m;
     currentReconnectAttempts := v;
     heartBeatInterval := heartBeatInterval m;
     heartBeatDuration := heartBeatDuration m;
     debug := debug m;
     uid := uid m; actid := actid m; susertoken := susertoken m;
     socketConnecting := socketConnecting m;
     disconnectedManually := disconnectedManually m;
     webSocketURL := webSocketURL m;
     onDataCallback := onDataCallback m;
     onOrderCallback := onOrderCallback m |}.

Definition set_heartBeatInterval (v : option nat) (m : TradeSmartWS) : TradeSmartWS :=
  {| socket := socket m;
     reconnectInterval := reconnectInterval m;
     reconnectAttempts := reconnectAttempts m;
     currentReconnectAttempts := currentReconnectAttempts m;
     heartBeatInterval := v;
     heartBeatDuration := heartBeatDuration m;
     debug := debug m;
     uid := uid m; actid := actid m; susertoken := susertoken m;
     socketConnecting := socketConnecting m;
     disconnectedManually := disconnectedManually m;
     webSocketURL := webSocketURL m;
     onDataCallback := onDataCallback m;
     onOrderCallback := onOrderCallback m |}.

Definition set_socketConnecting (v : bool) (m : TradeSmartWS) : TradeSmartWS :=
  {| socket := socket m;
     reconnectInterval := reconnectInterval m;
     reconnectAttempts := reconnectAttempts m;
     currentReconnectAttempts := currentReconnectAttempts m;
     heartBeatInterval := heartBeatInterval m;
     heartBeatDuration := heartBeatDuration m;
     debug := debug m;
     uid := uid m; actid := actid m; susertoken := susertoken m;
     socketConnecting := v;
     disconnectedManually := disconnectedManually m;
     webSocketURL := webSocketURL m;
     onDataCallback := onDataCallback m;
     onOrderCallback := onOrderCallback m |}.

Definition set_disconnectedManually (v : bool) (m : TradeSmartWS) : TradeSmartWS :=
  {| socket := socket m;
     reconnectInterval := reconnectInterval m;
     reconnectAttempts := reconnectAttempts m;
     currentReconnectAttempts := currentReconnectAttempts m;
     heartBeatInterval := heartBeatInterval m;
     heartBeatDuration := heartBeatDuration m;
     debug := debug m;
     uid := uid m; actid := actid m; susertoken := susertoken m;
     socketConnecting := socketConnecting m;
     disconnectedManually := v;
     webSocketURL := webSocketURL m;
     onDataCallback := onDataCallback m;
     onOrderCallback := onOrderCallback m |}.

Definition set_onDataCallback (v : JsCallback) (m : TradeSmartWS) : TradeSmartWS :=
  {| socket := socket m;
     reconnectInterval := reconnectInterval m;
     reconnectAttempts := reconnectAttempts m;
     currentReconnectAttempts := currentReconnectAttempts m;
     heartBeatInterval := heartBeatInterval m;
     heartBeatDuration := heartBeatDuration m;
     debug := debug m;
     uid := uid m; actid := actid m; susertoken := susertoken m;
     socketConnecting := socketConnecting m;
     disconnectedManually := disconnectedManually m;
     webSocketURL := webSocketURL m;
     onDataCallback := v;
     onOrderCallback := onOrderCallback m |}.

Definition set_onOrderCallback (v : JsCallback) (m : TradeSmartWS) : TradeSmartWS :=
  {| socket := socket m;
     reconnectInterval := reconnectInterval m;
     reconnectAttempts := reconnectAttempts m;
     currentReconnectAttempts := currentReconnectAttempts m;
     heartBeatInterval := heartBeatInterval m;
     heartBeatDuration := heartBeatDuration m;
     debug := debug m;
     uid := uid m; actid := actid m; susertoken := susertoken m;
     socketConnecting := socketConnecting m;
     disconnectedManually := disconnectedManually m;
     webSocketURL := webSocketURL m;
     onDataCallback := onDataCallback m;
     onOrderCallback := v |}.

(** ** The world the manager runs in *)

(** [trace] is newest first; every entry carries the clock at which it
    happened. *)
Record World : Type := {
  this : TradeSmartWS;
  sockets : list Sock;
  timers : list Timer;
  nextHandle : nat;
  now : nat;
  trace : list (nat * Obs)
}.

Definition upd_this (f : TradeSmartWS -> TradeSmartWS) (w : World) : World :=
  {| this := f (this w); sockets := sockets w; timers := timers w;
     nextHandle := nextHandle w; now := now w; trace := trace w |}.

Definition set_sockets (ss : list Sock) (w : World) : World :=
  {| this := this w; sockets := ss; timers := timers w;
     nextHandle := nextHandle w; now := now w; trace := trace w |}.

Definition set_timers (ts : list Timer) (w : World) : World :=
  {| this := this w; sockets := sockets w; timers := ts;
     nextHandle := nextHandle w; now := now w; trace := trace w |}.

Definition set_nextHandle (h : nat) (w : World) : World :=
  {| this := this w; sockets := sockets w; timers := timers w;
     nextHandle := h; now := now w; trace := trace w |}.

Definition set_now (t : nat) (w : World) : World :=
  {| this := this w; sockets := sockets w; timers := timers w;
     nextHandle := nextHandle w; now := t; trace := trace w |}.

Definition emit (o : Obs) (w : World) : World :=
  {| this := this w; sockets := sockets w; timers := timers w;
     nextHandle := nextHandle w; now := now w;
     trace := (now w, o) :: trace w |}.

(** ** Helpers on the world *)

Definition sock_ready (w : World) (i : nat) : option ReadyState :=
  readyState <$> (sockets w !! i).

(** [this.#socket && this.#socket.readyState === WebSocket.OPEN] *)
Definition socket_is_open (w : World) : bool :=
  match socket (this w) with
  | Some i =>
      match sock_ready w i with
      | Some OPEN => true
      | _ => false
      end
  | None => false
  end.

Definition set_ready (i : nat) (r : ReadyState) (w : World) : World :=
  set_sockets (alter (set_readyState r) i (sockets w)) w.

(** [setTimeout] / [setInterval]: a fresh handle, first due after the delay. *)
Definition add_timer (k : TimerKind) (delay : nat) (w : World) : World :=
  set_nextHandle (S (nextHandle w))
    (set_timers (timers w ++ [{| handle := nextHandle w; callback := k;
                                 due := now w + timer_delay delay |}]) w).

(** [clearInterval] / [clearTimeout]. *)
Definition remove_timer (h : nat) (w : World) : World :=
  set_timers (filter (fun t => handle t ≠ h) (timers w)) w.

(** [sock.send(JSON.stringify(frame))] as "ws" does it: the frame goes out
    on an OPEN transport, the call throws on a CONNECTING one, and nothing
    goes out once the transport is closing or closed. *)
Definition ws_send (i : nat) (frame : json) (w : World) : World * Completion :=
  match sock_ready w i with
  | Some OPEN => (emit (SocketSend i frame) w, Normal)
  | Some CONNECTING =>
      (w, Throw (Error "WebSocket is not open: readyState 0 (CONNECTING)"))
  | _ => (w, Normal)
  end.

(** [this.#socket.send(JSON.stringify(frame))]: reading [send] off a null
    [#socket] is a TypeError. *)
Definition socket_send (frame : json) (w : World) : World * Completion :=
  match socket (this w) with
  | Some i => ws_send i frame w
  | None => (w, Throw (TypeError "Cannot read properties of null (reading 'send')"))
  end.

(** [sock.close()] as "ws" does it: a CONNECTING handshake is aborted and an
    OPEN transport starts its closing handshake; both are CLOSING until the
    close event. *)
Definition ws_close (i : nat) (w : World) : World :=
  let w1 := emit (SocketClose i) w in
  match sock_ready w1 i with
  | Some CONNECTING | Some OPEN => set_ready i CLOSING w1
  | _ => w1
  end.

(** ** Outbound frames *)

(** An object literal as [JSON.stringify] writes it: a property whose
    value is [undefined] is left out. *)
Fixpoint defined_properties (props : list (string * option json))
  : list (string * json) :=
  match props with
  | [] => []
  | (k, Some v) :: rest => (k, v) :: defined_properties rest
  | (_, None) :: rest => defined_properties rest
  end.

(** [connectData] of [onopen], as it goes out. *)
Definition connectData (m : TradeSmartWS) : json :=
  JObj (defined_properties
          [("t", Some (JStr "c")); ("uid", JStr <$> uid m);
           ("actid", JStr <$> actid m);
           ("susertoken", JStr <$> susertoken m)]%string).

Definition heartBeatData : json := JObj [("t", JStr "h")]%string.

Definition subscribeData (subString : string) : json :=
  JObj [("t", JStr "t"); ("k", JStr subString)]%string.

(** [Array.prototype.join] on strings. *)
Fixpoint join (sep : string) (l : list string) : string :=
  match l with
  | [] => ""
  | [x] => x
  | x :: rest => x +:+ sep +:+ join sep rest
  end.

(** The template literal [`${i.Exchange}|${i.Token}`]. *)
Definition subscription_key (i : Instrument) : string :=
  Exchange i +:+ "|" +:+ Token i.

(** ** The class *)

(** [constructor(name = "socket", api)]: [name] is [None] when the argument
    is left undefined, [api] is [None] when it is null or undefined. *)
#[warnings="-abstract-large-number"]
Definition default_fields (api : SessionDetails) : TradeSmartWS :=
  {| socket := None;
     reconnectInterval := 10000;
     reconnectAttempts := 200;
     currentReconnectAttempts := 0;
     heartBeatInterval := None;
     heartBeatDuration := 3000;
     debug := false;
     uid := api_uid api;
     actid := api_actid api;
     susertoken := api_susertoken api;
     socketConnecting := false;
     disconnectedManually := false;
     webSocketURL := "wss://v2api.tradesmartonline.in/NorenWSTP/";
     onDataCallback := JsUndefined;
     onOrderCallback := JsUndefined |}.

Definition fresh_world (m : TradeSmartWS) : World :=
  {| this := m; sockets := []; timers := []; nextHandle := 0; now := 0;
     trace := [] |}.

Definition constructor (name : option string) (api : option SessionDetails)
  : JsError + World :=
  let name := default "socket"%string name in
  match api with
  | Some a =>
      if String.eqb name "" then inl (Error "websocket required name and api")
      else inr (fresh_world (default_fields a))
  | None => inl (Error "websocket required name and api")
  end.

(** [#setHeartBeat]: the new interval's handle overwrites the field. *)
Definition setHeartBeat (w : World) : World :=
  let h := nextHandle w in
  upd_this (set_heartBeatInterval (Some h))
    (add_timer (HeartBeatTimer (timer_delay (heartBeatDuration (this w))))
               (heartBeatDuration (this w)) w).

(** [#clearHeartBeat] *)
Definition clearHeartBeat (w : World) : World :=
  match heartBeatInterval (this w) with
  | Some h => upd_this (set_heartBeatInterval None) (remove_timer h w)
  | None => w
  end.

(** The callback of the heartbeat interval. *)
Definition heartBeatTick (w : World) : World :=
  if socket_is_open w then fst (socket_send heartBeatData w) else w.

(** [resolve()] / [reject(e)] of the promise made by the [connect()] call
    that created transport [i]. A settled promise stays as it is. When the
    promise settles its reactions run: [.finally] clears
    [#socketConnecting], and a rejection of a call made by the reconnect
    timer reaches its [.catch]. The reactions are microtasks: they are run
    here at the end of the handler that settles the promise, while after a
    failed handshake, where the transport reports error and close in one
    tick, they run once [onclose] is through as well. [onclose] reads
    neither the flag nor the promise, so the world after the close is the
    same either way, but for the place of the [.catch] log line in the
    trace. *)
Definition settle (i : nat) (p : PromiseState) (w : World) : World :=
  match sockets w !! i with
  | Some s =>
      match promise s with
      | Pending =>
          let w1 := set_sockets (alter (set_promise p) i (sockets w)) w in
          let w2 := upd_this (set_socketConnecting false) w1 in
          match p with
          | Rejected =>
              if caught s then emit (ConsoleError "Reconnect failed:") w2 else w2
          | _ => w2
          end
      | _ => w
      end
  | None => w
  end.

(** [connect()]. [by_timer] tells whether the call is the one of the
    reconnect timer. The constructor of "ws" throws only on a malformed URL
    or option; [#webSocketURL] is a fixed well-formed one, so the
    [catch (error)] branch of the executor is not taken. *)
Definition connect (by_timer : bool) (w : World) : World :=
  if socketConnecting (this w) then w
  else
    let i := length (sockets w) in
    let w1 := upd_this (fun m => set_disconnectedManually false
                                   (set_socketConnecting true m)) w in
    let w2 := set_sockets (sockets w1 ++
                [{| readyState := CONNECTING; promise := Pending;
                    caught := by_timer |}]) w1 in
    let w3 := emit (NewWebSocket i (webSocketURL (this w))) w2 in
    upd_this (set_socket (Some i)) w3.

(** [socket.onopen], for the transport [i] whose event it is. *)
Definition onopen (i : nat) (w : World) : World * Completion :=
  let w1 := upd_this (set_currentReconnectAttempts 0) w in
  let w2 := setHeartBeat w1 in
  match socket_send (connectData (this w2)) w2 with
  | (w3, Normal) =>
      let w4 := emit (ConsoleLog "websocket connected") w3 in
      (settle i Fulfilled w4, Normal)
  | (w3, Throw e) => (w3, Throw e)
  end.

(** [socket.onerror] *)
Definition onerror (i : nat) (w : World) : World :=
  settle i Rejected (emit (ConsoleError "WebSocket Error:") w).

(** [#attemptReconnect] *)
Definition attemptReconnect (w : World) : World :=
  if currentReconnectAttempts (this w) <? reconnectAttempts (this w) then
    let n := S (currentReconnectAttempts (this w)) in
    let w1 := upd_this (set_currentReconnectAttempts n) w in
    let w2 := emit (ConsoleLog ("Reconnect attempt " +:+ pretty n +:+ "...")) w1 in
    add_timer ReconnectTimer (reconnectInterval (this w2)) w2
  else
    emit (ConsoleError "Max reconnect attempts reached. Unable to reconnect.") w.

(** [socket.onclose] *)
Definition onclose (w : World) : World :=
  let w1 := clearHeartBeat w in
  let w2 := emit (ConsoleLog "WebSocket Closed") w1 in
  let w3 := if debug (this w2) then emit (ConsoleLog "[CloseEvent]") w2 else w2 in
  if negb (disconnectedManually (this w3)) then attemptReconnect w3 else w3.

(** The outcome of [JSON.parse(e?.data)], a builtin: the decoded value, or
    the SyntaxError it throws on text that is not JSON. *)
Inductive ParseResult : Type :=
  | ParseFailure
  | Parsed (data : json).

Fixpoint lookup_field (k : string) (fields : list (string * json)) : option json :=
  match fields with
  | [] => None
  | (k', v) :: rest => if String.eqb k k' then Some v else lookup_field k rest
  end.

(** [data.t]: [None] is [undefined]; reading a property off [null] throws. *)
Definition read_t (data : json) : JsError + option json :=
  match data with
  | JNull => inl (TypeError "Cannot read properties of null (reading 't')")
  | JObj fields => inr (lookup_field "t" fields)
  | _ => inr None
  end.

(** [kinds.includes(v)] for an array of string literals. *)
Definition includes (kinds : list string) (v : option json) : bool :=
  match v with
  | Some (JStr s) => existsb (String.eqb s) kinds
  | _ => false
  end.

Definition not_null (c : JsCallback) : bool :=
  match c with JsNull => false | _ => true end.

Definition truthy (c : JsCallback) : bool :=
  match c with JsFunction _ => true | _ => false end.

(** Calling what a callback slot holds. A registered function is taken to
    return normally; calling [undefined] or [null] is a TypeError. *)
Definition call_slot (mk : nat -> json -> Obs) (field : string)
    (c : JsCallback) (data : json) (w : World) : World * Completion :=
  match c with
  | JsFunction f => (emit (mk f data) w, Normal)
  | _ => (w, Throw (TypeError (field +:+ " is not a function")))
  end.

(** [socket.onmessage] *)
Definition onmessage (r : ParseResult) (w : World) : World * Completion :=
  match r with
  | ParseFailure => (w, Throw (SyntaxError "Unexpected token in JSON"))
  | Parsed data =>
      match read_t data with
      | inl e => (w, Throw e)
      | inr t =>
          if includes ["tk"; "tf"; "df"; "dk"]%string t
             && not_null (onDataCallback (this w))
          then call_slot DataCallback "this[#onDataCallback]"
                 (onDataCallback (this w)) data w
          else if includes ["om"]%string t && truthy (onOrderCallback (this w))
          then call_slot OrderCallback "this[#onOrderCallback]"
                 (onOrderCallback (this w)) data w
          else if debug (this w)
          then (emit (ConsoleLog "Message Recived") w, Normal)
          else (w, Normal)
      end
  end.

(** [onData(callback)] / [onOrder(callback)] *)
Definition onData (cb : JsCallback) (w : World) : World :=
  upd_this (set_onDataCallback cb) w.

Definition onOrder (cb : JsCallback) (w : World) : World :=
  upd_this (set_onOrderCallback cb) w.

(** [disconnect()] *)
Definition disconnect (w : World) : World :=
  match socket (this w) with
  | Some i =>
      let w1 := upd_this (set_disconnectedManually true) w in
      let w2 := clearHeartBeat w1 in
      let w3 := ws_close i w2 in
      upd_this (set_socket None) w3
  | None => w
  end.

(** [async subscribe(instruments = [])]. The argument is [None] for
    [null]; a call without argument is [Some []]. The method has no
    [await]: its body runs inside the call, and a [throw] in it rejects the
    promise the call returns. *)
Definition subscribe (instruments : option (list Instrument)) (w : World)
  : World * AsyncResult :=
  if negb (socket_is_open w)
  then (w, RejectedWith (Error "WebSocket is not connected."))
  else
    match instruments with
    | None | Some [] => (w, RejectedWith (Error "instruments invalid"))
    | Some l =>
        let subString := join "#" (map subscription_key l) in
        match socket_send (subscribeData subString) w with
        | (w', Normal) => (w', Resolved)
        | (w', Throw e) => (w', RejectedWith e)
        end
    end.

(** ** The event loop *)

Definition is_pending (h : nat) (w : World) : bool :=
  existsb (fun t => handle t =? h) (timers w).

Definition reschedule (h : nat) (at_ : nat) (w : World) : World :=
  set_timers (map (fun t => if handle t =? h
                            then {| handle := h; callback := callback t; due := at_ |}
                            else t) (timers w)) w.

(** Running the callback of a timer that is due: a timeout is spent, an
    interval is armed again one period later. *)
Definition fire (t : Timer) (w : World) : World :=
  match callback t with
  | ReconnectTimer => connect true (remove_timer (handle t) w)
  | HeartBeatTimer period =>
      heartBeatTick (reschedule (handle t) (now w + period) w)
  end.

Definition fire_if_pending (w : World) (t : Timer) : World :=
  if is_pending (handle t) w then fire t w else w.

(** One millisecond passes; the timers due by then run, oldest first, unless
    an earlier callback has cleared them. *)
Definition tick (w : World) : World :=
  let w1 := set_now (S (now w)) w in
  fold_left fire_if_pending (filter (fun t => due t <= now w1) (timers w1)) w1.

(** [n] milliseconds in which nothing happens but the timers. *)
Fixpoint elapse (n : nat) (w : World) : World :=
  match n with
  | 0 => w
  | S n' => elapse n' (tick w)
  end.

Inductive Event : Type :=
  | CallConnect
  | CallDisconnect
  | CallSubscribe (instruments : option (list Instrument))
  | CallOnData (cb : JsCallback)
  | CallOnOrder (cb : JsCallback)
  | TransportOpen (i : nat)
  | TransportError (i : nat)
  | TransportClosing (i : nat)
  | TransportClose (i : nat)
  | TransportMessage (i : nat) (r : ParseResult)
  | Tick.

(** The transport's contract: a transport opens once, out of CONNECTING; an
    error leaves it CLOSING; the peer may start the closing handshake of an
    OPEN transport; the close event comes once; messages arrive on an OPEN
    transport. *)
Definition enabled (ev : Event) (w : World) : bool :=
  match ev with
  | TransportOpen i =>
      match sock_ready w i with Some CONNECTING => true | _ => false end
  | TransportError i | TransportClose i =>
      match sock_ready w i with
      | Some CLOSED | None => false
      | _ => true
      end
  | TransportClosing i | TransportMessage i _ =>
      match sock_ready w i with Some OPEN => true | _ => false end
  | _ => true
  end.

Definition step (ev : Event) (w : World) : World * Completion :=
  match ev with
  | CallConnect => (connect false w, Normal)
  | CallDisconnect => (disconnect w, Normal)
  | CallSubscribe l => (fst (subscribe l w), Normal)
  | CallOnData cb => (onData cb w, Normal)
  | CallOnOrder cb => (onOrder cb w, Normal)
  | TransportOpen i => onopen i (set_ready i OPEN w)
  | TransportError i => (onerror i (set_ready i CLOSING w), Normal)
  | TransportClosing i => (set_ready i CLOSING w, Normal)
  | TransportClose i => (onclose (set_ready i CLOSED w), Normal)
  | TransportMessage i r => onmessage r w
  | Tick => (tick w, Normal)
  end.

(** A run of events; an exception that escapes a handler is left to the
    host, the manager's fields stay as the handler left them. *)
Definition run (evs : list Event) (w : World) : World :=
  fold_left (fun acc ev => fst (step ev acc)) evs w.

Inductive reachable (w0 : World) : World -> Prop :=
  | reachable_start : reachable w0 w0
  | reachable_step w ev :
      reachable w0 w -> enabled ev w = true -> reachable w0 (fst (step ev w)).

(** ** Reading the trace *)

(** The discriminant [t] of an outbound frame. *)
Definition frame_kind (frame : json) : option string :=
  match frame with
  | JObj fields =>
      match lookup_field "t" fields with
      | Some (JStr s) => Some s
      | _ => None
      end
  | _ => None
  end.

Definition sends_kind (kind : string) (o : Obs) : bool :=
  match o with
  | SocketSend _ frame =>
      match frame_kind frame with
      | Some s => String.eqb s kind
      | None => false
      end
  | _ => false
  end.

Definition is_heartbeat (e : nat * Obs) : bool := sends_kind "h" (snd e).
Definition is_subscribe (e : nat * Obs) : bool := sends_kind "t" (snd e).

Definition is_new (e : nat * Obs) : bool :=
  match snd e with NewWebSocket _ _ => true | _ => false end.

Definition is_send (e : nat * Obs) : bool :=
  match snd e with SocketSend _ _ => true | _ => false end.

(** The observations of [w'] that [w] does not have yet, newest first. *)
Definition since (w w' : World) : list (nat * Obs) :=
  take (length (trace w') - length (trace w)) (trace w').

(** The error taxonomy of the specification, as the messages of the
    [Error]s that [subscribe] throws. *)
Definition NotConnected : JsError := Error "WebSocket is not connected.".
Definition InvalidArgument : JsError := Error "instruments invalid".

(** A manager as the constructor leaves it, and the scenarios the examples
    below run on it. *)
Definition session : SessionDetails :=
  {| api_uid := Some "FA0001"; api_actid := Some "FA0001";
     api_susertoken := Some "s3cr3t" |}%string.

Definition idle_world : World := fresh_world (default_fields session).

Definition open_world : World := run [CallConnect; TransportOpen 0] idle_world.

Definition nse22 : Instrument := {| Exchange := "NSE"; Token := "22" |}.
Definition nse26 : Instrument := {| Exchange := "NSE"; Token := "26" |}.

(** ** Predicates of the statements *)

Definition connecting (w : World) (i : nat) : Prop :=
  sock_ready w i = Some CONNECTING.

Definition pending (w : World) (i : nat) : Prop :=
  promise <$> (sockets w !! i) = Some Pending.

(** What every run keeps true of the in-flight flag: a transport that is
    still CONNECTING is the one [#socket] names and its [connect()] promise
    is pending; the flag is up as long as a promise is pending; no two
    promises are pending together. *)
Record inv (w : World) : Prop := {
  inv_bound : forall i, socket (this w) = Some i -> i < length (sockets w);
  inv_connecting : forall i,
      connecting w i -> pending w i /\ socket (this w) = Some i;
  inv_flag : forall i, pending w i -> socketConnecting (this w) = true;
  inv_unique : forall i j, pending w i -> pending w j -> i = j
}.

(** Two worlds with the same transports, the same [#socket] and the same
    in-flight flag. *)
Definition same_conn (w w' : World) : Prop :=
  sockets w' = sockets w
  /\ socket (this w') = socket (this w)
  /\ socketConnecting (this w') = socketConnecting (this w).

(** The credentials and the settings: fields the class initialises and
    never assigns again. *)
Definition constants (w : World) :=
  (uid (this w), actid (this w), susertoken (this w),
   (reconnectInterval (this w), reconnectAttempts (this w),
    heartBeatDuration (this w), debug (this w), webSocketURL (this w))).

(** A run in which every event is one the transport's contract allows. *)
Fixpoint run_enabled (evs : list Event) (w : World) : bool :=
  match evs with
  | [] => true
  | ev :: rest => enabled ev w && run_enabled rest (fst (step ev w))
  end.

(** [w'] has the trace of [w] and, on top of it, only observations that
    are not subscribe frames. *)
Definition no_subscribe_since (w w' : World) : Prop :=
  exists d, trace w' = d ++ trace w /\ forallb (fun e => negb (is_subscribe e)) d = true.


(** ** Scenarios *)

Definition tk_frame : json := JObj [("t", JStr "tk"); ("lp", JStr "101.5")]%string.
Definition om_frame : json := JObj [("t", JStr "om")]%string.

Definition connecting_world : World := run [CallConnect] idle_world.

(** [latency] ms after it was made, transport [i] reports an error and
    closes. *)
Definition fail_to_open (latency i : nat) (w : World) : World :=
  run [TransportError i; TransportClose i] (elapse latency w).

(** The environment of a transport that always fails to open: it fails the
    transport [#socket] names and lets time pass until the first pending
    timer is due, for at most [rounds] rounds or until no timer is left. *)
Fixpoint failing_transport (rounds latency : nat) (w : World) : World :=
  match rounds with
  | 0 => w
  | S r =>
      match socket (this w) with
      | Some i =>
          let w1 := fail_to_open latency i w in
          match timers w1 with
          | [] => w1
          | t :: _ => failing_transport r latency (elapse (due t - now w1) w1)
          end
      | None => w
      end
  end.

(** The times at which transports were created, latest first. *)
Definition creation_times (w : World) : list nat :=
  map fst (List.filter is_new (trace w)).

(** A manager waiting on a transport that is CONNECTING, nothing else
    going on. *)
Record awaiting (w : World) (i : nat) : Prop := {
  aw_socket : socket (this w) = Some i;
  aw_last : S i = length (sockets w);
  aw_ready : sock_ready w i = Some CONNECTING;
  aw_promise : pending w i;
  aw_timers : timers w = [];
  aw_heartbeat : heartBeatInterval (this w) = None;
  aw_manual : disconnectedManually (this w) = false
}.

(** The manager of the specification's example: at most two reconnect
    attempts. *)
#[warnings="-abstract-large-number"]
Definition two_attempts : TradeSmartWS :=
  {| socket := None;
     reconnectInterval := 10000;
     reconnectAttempts := 2;
     currentReconnectAttempts := 0;
     heartBeatInterval := None;
     heartBeatDuration := 3000;
     debug := false;
     uid := Some "FA0001"; actid := Some "FA0001"; susertoken := Some "s3cr3t";
     socketConnecting := false;
     disconnectedManually := false;
     webSocketURL := "wss://v2api.tradesmartonline.in/NorenWSTP/";
     onDataCallback := JsUndefined;
     onOrderCallback := JsUndefined |}.

#[warnings="-abstract-large-number"]
Definition backoff_ms : nat := 10000.

#[warnings="-abstract-large-number"]
Definition heartbeat_ms : nat := 3000.

(** The connection dropped and the backoff timer is pending. *)
Definition backoff_world : World :=
  run [CallConnect; TransportOpen 0; TransportClose 0] idle_world.

Definition disconnected_world : World := run [CallDisconnect] backoff_world.

(** A second [connect()] after the first one resolved, and its transport
    open as well. *)
Definition twice_connected_world : World :=
  run [CallConnect; TransportOpen 0; CallConnect; TransportOpen 1] idle_world.



(** ** Further predicates and scenarios *)

Definition bounded (w : World) : Prop :=
  currentReconnectAttempts (this w) <= reconnectAttempts (this w).

(** Two worlds with the same counter and the same maximum. *)
Definition same_counter (w w' : World) : Prop :=
  currentReconnectAttempts (this w') = currentReconnectAttempts (this w)
  /\ reconnectAttempts (this w') = reconnectAttempts (this w).

(** An open connection at rest: [#socket] is an OPEN transport and the one
    timer is the heartbeat interval the field names. *)
Record steady (w : World) (i h : nat) : Prop := {
  st_socket : socket (this w) = Some i;
  st_ready : sock_ready w i = Some OPEN;
  st_heartbeat : heartBeatInterval (this w) = Some h;
  st_timers : exists p d,
      timers w = [{| handle := h; callback := HeartBeatTimer p; due := d |}]
}.

Definition is_data_callback (e : nat * Obs) : bool :=
  match snd e with DataCallback _ _ => true | _ => false end.

(** [disconnect()] and [connect()] in quick succession: the new transport
    is open while the old one has not reported its close yet. *)
Definition reopened_world : World :=
  run [CallDisconnect; CallConnect; TransportOpen 1] open_world.

Definition is_reconnect_timer (t : Timer) : bool :=
  match callback t with ReconnectTimer => true | HeartBeatTimer _ => false end.

Module API.

(** The class [TradeSmartAPI]: its private session fields and the public
    property [uid] that [setSessionDetails] creates ([None] before). *)
Record TradeSmartAPI : Type := {
  susertoken : string;
  uid : string;
  actid : string;
  pwd : string;
  vc : string;
  apikey : string;
  totpkey : string;
  debug : bool;
  public_uid : option string
}.

(** [constructor(uid, pwd, vc, apikey, totpkey)] *)
Definition constructor (uid pwd vc apikey totpkey : string) : TradeSmartAPI :=
  {| susertoken := ""; uid := uid; actid := uid; pwd := pwd; vc := vc;
     apikey := apikey; totpkey := totpkey; debug := false;
     public_uid := None |}.

(** [setSessionDetails(uid = "", susertoken = "")]; an argument left
    undefined is [None]. *)
Definition setSessionDetails (uid' susertoken' : option string)
    (a : TradeSmartAPI) : TradeSmartAPI :=
  {| susertoken := default ""%string susertoken';
     uid := uid a;
     actid := default ""%string uid';
     pwd := pwd a; vc := vc a; apikey := apikey a; totpkey := totpkey a;
     debug := debug a;
     public_uid := Some (default ""%string uid') |}.

(** [getSessionDetails()] *)
Definition getSessionDetails (a : TradeSmartAPI) : SessionDetails :=
  {| api_uid := Some (uid a); api_susertoken := Some (susertoken a);
     api_actid := Some (actid a) |}.

(** A [TradeSmartAPI] instance itself as the argument of the manager's
    constructor: [uid] is the public property [setSessionDetails] made, if
    it did; [actid] and [susertoken] exist only as the private [#actid] and
    [#susertoken], so reading them as properties gives [undefined]. *)
Definition as_api_argument (a : TradeSmartAPI) : SessionDetails :=
  {| api_uid := public_uid a; api_susertoken := None; api_actid := None |}.

End API.

Module Instruments.

(** A row of an instruments file as [DownloadInstruments] writes it: an
    object whose values are all strings, as its list of entries. *)
Definition Scrip : Type := list (string * string).

(** The [params] object of a query: its entries in key order; a value is
    a string or [undefined] ([None]). *)
Definition Params : Type := list (string * option string).

(** [obj[key]] *)
Fixpoint prop {A : Type} (key : string) (obj : list (string * A)) : option A :=
  match obj with
  | [] => None
  | (k, v) :: rest => if String.eqb key k then Some v else prop key rest
  end.

(** [params[key]]: a missing key and a key holding [undefined] both read
    as [undefined]. *)
Definition param (key : string) (params : Params) : option string :=
  match prop key params with
  | Some v => v
  | None => None
  end.

(** [!v] for a string or [undefined]. *)
Definition falsy (v : option string) : bool :=
  match v with
  | None => true
  | Some s => String.eqb s ""
  end.

(** The filter callback of [FindInstruments]. *)
Definition find_matches (params : Params) (scrip : Scrip) : bool :=
  forallb (fun key =>
             match param key params with
             | None => true
             | Some v =>
                 if String.eqb v "" then true
                 else bool_decide (prop key scrip = Some v)
             end)
          (map fst params).

(** The filter callback of [GetExpiryDates]. *)
Definition expiry_matches (params : Params) (scrip : Scrip) : bool :=
  forallb (fun key => bool_decide (param key params = prop key scrip))
          (map fst params).

Inductive FindResult : Type :=
  | ReturnsNull
  | ReturnsOne (scrip : Scrip)
  | ReturnsMany (scrips : list Scrip).

(** [fd || getFileData(exchange)]: an array is truthy also when empty.
    [getFileData] reads and parses a file and may throw. *)
Definition file_data (getFileData : option string -> JsError + list Scrip)
    (exchange : option string) (fd : option (list Scrip))
  : JsError + list Scrip :=
  match fd with
  | Some d => inr d
  | None => getFileData exchange
  end.

(** [FindInstruments(params, fd)]. [sort] is [Array.prototype.sort] with
    the comparator on [new Date(Expiry).getTime()]. *)
Definition FindInstruments
    (getFileData : option string -> JsError + list Scrip)
    (sort : list Scrip -> list Scrip)
    (params : Params) (fd : option (list Scrip)) : JsError + FindResult :=
  if falsy (param "Exchange" params) || falsy (param "Symbol" params)
  then inl (Error "Exchange not found or Symbol is missing")
  else
    match file_data getFileData (param "Exchange" params) fd with
    | inl e => inl e
    | inr filedata =>
        let instrumentdata := sort (List.filter (find_matches params) filedata) in
        inr (match instrumentdata with
             | [] => ReturnsNull
             | [one] => ReturnsOne one
             | _ => ReturnsMany instrumentdata
             end)
    end.

(** [Array.from(new Set(xs))]: the first occurrence of each value, in
    order. *)
Fixpoint unique_from (seen : list (option string)) (xs : list (option string))
  : list (option string) :=
  match xs with
  | [] => []
  | x :: rest =>
      if bool_decide (x ∈ seen) then unique_from seen rest
      else x :: unique_from (x :: seen) rest
  end.

(** [GetExpiryDates(params, fd)]. [sort] is [Array.prototype.sort] with
    the comparator on [new Date(date).getTime()]. *)
Definition GetExpiryDates
    (getFileData : option string -> JsError + list Scrip)
    (sort : list (option string) -> list (option string))
    (params : Params) (fd : option (list Scrip))
  : JsError + list (option string) :=
  match file_data getFileData (param "Exchange" params) fd with
  | inl e => inl e
  | inr filedata =>
      let filteredData := List.filter (expiry_matches params) filedata in
      inr (sort (unique_from [] (map (prop "Expiry") filteredData)))
  end.

(** The instruments a result holds. *)
Definition found (r : FindResult) : list Scrip :=
  match r with
  | ReturnsNull => []
  | ReturnsOne s => [s]
  | ReturnsMany l => l
  end.

End Instruments.

Definition sample_rows : list Instruments.Scrip :=
  [ [("Exchange", "NFO"); ("Symbol", "NIFTY"); ("Expiry", "2025-01-30");
     ("OptionType", "CE")];
    [("Exchange", "NFO"); ("Symbol", "BANKNIFTY"); ("Expiry", "2025-01-30");
     ("OptionType", "CE")];
    [("Exchange", "NFO"); ("Symbol", "NIFTY"); ("Expiry", "2025-01-30");
     ("OptionType", "PE")];
    [("Exchange", "NFO"); ("Symbol", "NIFTY"); ("Expiry", "2025-02-27");
     ("OptionType", "CE")] ]%string.

Definition no_file (exchange : option string) : JsError + list Instruments.Scrip :=
  inl (Error "ENOENT").

Definition nifty_put_query : Instruments.Params :=
  [("Exchange", Some "NFO"); ("Symbol", Some "NIFTY"); ("Expiry", Some "");
   ("OptionType", Some "PE")]%string.

(** * Properties *)

(** ** Basic facts *)

Lemma socket_is_open_spec (w : World) :
  socket_is_open w = true <->
  exists i, socket (this w) = Some i /\ sock_ready w i = Some OPEN.
Proof.
  unfold socket_is_open. split.
  - destruct (socket (this w)) as [i|]; [|discriminate].
    destruct (sock_ready w i) as [[]|] eqn:E; try discriminate.
    intros _. exists i. auto.
  - intros (i & -> & ->). reflexivity.
Qed.

Lemma since_emit (o : Obs) (w : World) : since w (emit o w) = [(now w, o)].
Proof.
  unfold since. cbn [emit trace length].
  replace (S (length (trace w)) - length (trace w)) with 1 by lia.
  reflexivity.
Qed.

Lemma since_self (w : World) : since w w = [].
Proof. unfold since. rewrite Nat.sub_diag. reflexivity. Qed.

(** ** subscribe *)

Lemma socket_send_open (frame : json) (w : World) (i : nat) :
  socket (this w) = Some i -> sock_ready w i = Some OPEN ->
  socket_send frame w = (emit (SocketSend i frame) w, Normal).
Proof. intros Hs Hr. unfold socket_send, ws_send. rewrite Hs, Hr. reflexivity. Qed.

(** C10. A successful [subscribe] call (transport OPEN, list not empty)
    resolves, and its one effect is one frame [{"t":"t","k":...}] sent on
    the current transport, whose [k] is the '#'-join of the "Exchange|Token"
    strings of the instruments of this call, in the order given and
    duplicates included; the manager's fields, the transports and the timers
    are as before. *)
Theorem subscribe_sends_the_keys_of_the_call
    (w : World) (i : nat) (instruments : list Instrument)
    (Hsock : socket (this w) = Some i)
    (Hopen : sock_ready w i = Some OPEN)
    (Hne : instruments <> []) :
  let w' := fst (subscribe (Some instruments) w) in
  snd (subscribe (Some instruments) w) = Resolved
  /\ since w w' =
       [(now w, SocketSend i
                  (JObj [("t", JStr "t");
                         ("k", JStr (join "#" (map subscription_key instruments)))]%string))]
  /\ trace w' = since w w' ++ trace w
  /\ this w' = this w /\ sockets w' = sockets w /\ timers w' = timers w
  /\ nextHandle w' = nextHandle w /\ now w' = now w.
Proof.
  assert (Ho : socket_is_open w = true)
    by (apply socket_is_open_spec; eauto).
  unfold subscribe. rewrite Ho. cbn [negb].
  destruct instruments as [|a l]; [congruence|].
  rewrite (socket_send_open _ w i Hsock Hopen).
  cbn [fst snd]. rewrite since_emit. repeat split; reflexivity.
Qed.

Lemma subscribe_sends_the_keys_of_the_call_witness :
  socket (this open_world) = Some 0
  /\ sock_ready open_world 0 = Some OPEN
  /\ since open_world (fst (subscribe (Some [nse22; nse26; nse22]) open_world)) =
     [(0, SocketSend 0 (JObj [("t", JStr "t"); ("k", JStr "NSE|22#NSE|26#NSE|22")]%string))].
Proof.
  split; [reflexivity|]. split; [reflexivity|].
  apply (subscribe_sends_the_keys_of_the_call open_world 0 [nse22; nse26; nse22]).
  - reflexivity.
  - reflexivity.
  - discriminate.
Defined.

(** C5, as the code has it. A [subscribe] call that finds no OPEN
    transport, or is given no instrument, sends nothing and changes nothing;
    the promise it returns is rejected, with the not-connected error
    whenever the transport is not OPEN (also for an empty list) and with
    the invalid-argument error only when the transport is OPEN. *)
Theorem subscribe_failure_leaves_the_world
    (w : World) (instruments : option (list Instrument))
    (Hfail : socket_is_open w = false
             \/ instruments = None \/ instruments = Some []) :
  subscribe instruments w =
    (w, RejectedWith (if socket_is_open w then InvalidArgument else NotConnected)).
Proof.
  unfold subscribe.
  destruct (socket_is_open w); cbn [negb]; [|reflexivity].
  destruct Hfail as [H|[->| ->]]; [discriminate|reflexivity|reflexivity].
Qed.

Lemma subscribe_failure_leaves_the_world_witness :
  (socket_is_open open_world = false
   \/ Some [] = @None (list Instrument) \/ Some [] = Some (@nil Instrument))
  /\ subscribe (Some []) open_world = (open_world, RejectedWith InvalidArgument).
Proof.
  split; [right; right; reflexivity|].
  apply (subscribe_failure_leaves_the_world open_world (Some [])).
  right; right; reflexivity.
Defined.

(** C5 as stated fails: on a manager that is not connected the empty list
    is answered with the not-connected error, not the invalid-argument
    one. *)
Lemma subscribe_empty_list_not_connected :
  subscribe (Some []) idle_world = (idle_world, RejectedWith NotConnected)
  /\ snd (subscribe (Some []) idle_world) <> RejectedWith InvalidArgument.
Proof. split; [reflexivity|discriminate]. Qed.

(** ** Inbound frames *)

(** C3, as the code has it. [socket.onmessage] has no handler around
    [JSON.parse]: on a frame that does not decode the SyntaxError leaves the
    message handler; before that nothing was done, so no callback ran,
    nothing was logged or sent, and every field, transport (the connection
    stays as it was) and timer is untouched. *)
Theorem malformed_frame_throws_out_of_onmessage (w : World) (i : nat) :
  exists msg,
    step (TransportMessage i ParseFailure) w = (w, Throw (SyntaxError msg)).
Proof. eexists. reflexivity. Qed.

(** C3 as stated fails: on an open connection a frame that is not JSON ends
    the handler with an exception instead of a normal return. *)
Lemma malformed_frame_propagates :
  enabled (TransportMessage 0 ParseFailure) open_world = true
  /\ snd (step (TransportMessage 0 ParseFailure) open_world) <> Normal.
Proof. split; [reflexivity|discriminate]. Qed.

(** C4 at its failing input. A market-data frame that arrives while no data
    callback was ever registered: the slot is [undefined], the guard
    [!== null] lets it through, and the call of [undefined] throws a
    TypeError out of the handler. *)
Theorem data_frame_without_callback_throws :
  onDataCallback (this open_world) = JsUndefined
  /\ enabled (TransportMessage 0 (Parsed tk_frame)) open_world = true
  /\ step (TransportMessage 0 (Parsed tk_frame)) open_world =
     (open_world, Throw (TypeError "this[#onDataCallback] is not a function")).
Proof. repeat split. Qed.

(** What the dispatch does where it works: a registered data callback gets
    the market-data kinds, a registered order callback gets ["om"]. *)
Lemma data_frame_reaches_the_data_callback (w : World) (f : nat)
    (data : json) (kind : string) :
  onDataCallback (this w) = JsFunction f ->
  read_t data = inr (Some (JStr kind)) ->
  In kind ["tk"; "tf"; "df"; "dk"]%string ->
  onmessage (Parsed data) w = (emit (DataCallback f data) w, Normal).
Proof.
  intros Hcb Ht Hk. unfold onmessage. rewrite Ht, Hcb.
  assert (includes ["tk"; "tf"; "df"; "dk"]%string (Some (JStr kind)) = true) as ->.
  { cbn in Hk. destruct Hk as [<-|[<-|[<-|[<-|[]]]]]; reflexivity. }
  reflexivity.
Qed.

Lemma order_frame_reaches_the_order_callback (w : World) (f : nat) (data : json) :
  onOrderCallback (this w) = JsFunction f ->
  read_t data = inr (Some (JStr "om")) ->
  onmessage (Parsed data) w = (emit (OrderCallback f data) w, Normal).
Proof. intros Hcb Ht. unfold onmessage. rewrite Ht, Hcb. reflexivity. Qed.

(** The two dispatch scenarios of the specification. *)
Lemma dispatch_scenarios :
  since (run [CallOnData (JsFunction 7)] open_world)
        (run [CallOnData (JsFunction 7); TransportMessage 0 (Parsed tk_frame)]
             open_world)
    = [(0, DataCallback 7 tk_frame)]
  /\ since (run [CallOnOrder (JsFunction 9)] open_world)
           (run [CallOnOrder (JsFunction 9); TransportMessage 0 (Parsed om_frame)]
                open_world)
    = [(0, OrderCallback 9 om_frame)].
Proof. split; vm_compute; reflexivity. Qed.

Lemma order_frame_without_callback (w : World) (data : json) :
  truthy (onOrderCallback (this w)) = false ->
  read_t data = inr (Some (JStr "om")) ->
  onmessage (Parsed data) w =
    (if debug (this w) then emit (ConsoleLog "Message Recived") w else w, Normal).
Proof.
  intros Hcb Ht. unfold onmessage. rewrite Ht, Hcb. cbn.
  destruct (debug (this w)); reflexivity.
Qed.

Lemma other_frame_is_only_logged (w : World) (data : json) (t : option json) :
  read_t data = inr t ->
  includes ["tk"; "tf"; "df"; "dk"; "om"]%string t = false ->
  onmessage (Parsed data) w =
    (if debug (this w) then emit (ConsoleLog "Message Recived") w else w, Normal).
Proof.
  intros Ht Hk. unfold onmessage. rewrite Ht.
  destruct t as [[]|]; cbn in *; try (destruct (debug (this w)); reflexivity).
  repeat (apply orb_false_elim in Hk; destruct Hk as [? Hk]).
  repeat match goal with H : String.eqb _ _ = false |- _ => rewrite H; clear H end.
  cbn. destruct (debug (this w)); reflexivity.
Qed.

(** ** The connection invariant *)

Lemma same_conn_refl (w : World) : same_conn w w.
Proof. repeat split. Qed.

Lemma same_conn_trans (w1 w2 w3 : World) :
  same_conn w1 w2 -> same_conn w2 w3 -> same_conn w1 w3.
Proof. unfold same_conn. intros (?&?&?) (?&?&?). repeat split; congruence. Qed.

Lemma inv_same_conn (w w' : World) : same_conn w w' -> inv w -> inv w'.
Proof.
  intros (Hs & Hk & Hf) [B C F U].
  split; unfold connecting, pending, sock_ready in *; rewrite ?Hs, ?Hk, ?Hf; auto.
Qed.

Lemma same_conn_emit (o : Obs) (w : World) : same_conn w (emit o w).
Proof. repeat split. Qed.

Lemma same_conn_add_timer (k : TimerKind) (d : nat) (w : World) :
  same_conn w (add_timer k d w).
Proof. repeat split. Qed.

Lemma same_conn_remove_timer (h : nat) (w : World) : same_conn w (remove_timer h w).
Proof. repeat split. Qed.

Lemma same_conn_reschedule (h t : nat) (w : World) : same_conn w (reschedule h t w).
Proof. repeat split. Qed.

Lemma same_conn_set_now (t : nat) (w : World) : same_conn w (set_now t w).
Proof. repeat split. Qed.

Lemma same_conn_setHeartBeat (w : World) : same_conn w (setHeartBeat w).
Proof. repeat split. Qed.

Lemma same_conn_clearHeartBeat (w : World) : same_conn w (clearHeartBeat w).
Proof. unfold clearHeartBeat. destruct (heartBeatInterval (this w)); repeat split. Qed.

Lemma same_conn_attemptReconnect (w : World) : same_conn w (attemptReconnect w).
Proof.
  unfold attemptReconnect.
  destruct (currentReconnectAttempts (this w) <? reconnectAttempts (this w));
    repeat split.
Qed.

Lemma same_conn_onclose (w : World) : same_conn w (onclose w).
Proof.
  unfold onclose. cbv zeta.
  destruct (debug _); destruct (negb _);
    repeat (eapply same_conn_trans;
            [|first [apply same_conn_attemptReconnect|apply same_conn_emit]]);
    apply same_conn_clearHeartBeat.
Qed.

Lemma same_conn_ws_send (i : nat) (frame : json) (w : World) :
  same_conn w (fst (ws_send i frame w)).
Proof. unfold ws_send. destruct (sock_ready w i) as [[]|]; repeat split. Qed.

Lemma same_conn_socket_send (frame : json) (w : World) :
  same_conn w (fst (socket_send frame w)).
Proof.
  unfold socket_send. destruct (socket (this w));
    [apply same_conn_ws_send|apply same_conn_refl].
Qed.

Lemma same_conn_heartBeatTick (w : World) : same_conn w (heartBeatTick w).
Proof.
  unfold heartBeatTick. destruct (socket_is_open w);
    [apply same_conn_socket_send|apply same_conn_refl].
Qed.

Lemma same_conn_subscribe (l : option (list Instrument)) (w : World) :
  same_conn w (fst (subscribe l w)).
Proof.
  unfold subscribe. destruct (negb (socket_is_open w)); [apply same_conn_refl|].
  destruct l as [[|a l]|]; try apply same_conn_refl.
  pose proof (same_conn_socket_send
    (subscribeData (join "#" (map subscription_key (a :: l)))) w) as H.
  destruct (socket_send _ w) as [w' []]; exact H.
Qed.

Lemma same_conn_onmessage (r : ParseResult) (w : World) :
  same_conn w (fst (onmessage r w)).
Proof.
  unfold onmessage, call_slot.
  repeat case_match; simplify_eq/=; repeat split.
Qed.

Lemma pending_set_ready (w : World) (i j : nat) (r : ReadyState) :
  pending (set_ready i r w) j <-> pending w j.
Proof.
  unfold pending, set_ready. cbn.
  destruct (decide (i = j)) as [->|Hne].
  - rewrite list_lookup_alter_eq. destruct (sockets w !! j); reflexivity.
  - rewrite list_lookup_alter_ne by done. reflexivity.
Qed.

Lemma sock_ready_set_ready_eq (w : World) (i : nat) (r : ReadyState) :
  sock_ready (set_ready i r w) i = (fun _ => r) <$> (sockets w !! i).
Proof.
  unfold sock_ready, set_ready. cbn. rewrite list_lookup_alter_eq.
  destruct (sockets w !! i); reflexivity.
Qed.

Lemma sock_ready_set_ready_ne (w : World) (i j : nat) (r : ReadyState) :
  i <> j -> sock_ready (set_ready i r w) j = sock_ready w j.
Proof.
  intros Hne. unfold sock_ready, set_ready. cbn.
  rewrite list_lookup_alter_ne by done. reflexivity.
Qed.

Lemma connecting_set_ready (w : World) (i j : nat) (r : ReadyState) :
  r <> CONNECTING ->
  connecting (set_ready i r w) j -> j <> i /\ connecting w j.
Proof.
  intros Hr. unfold connecting. destruct (decide (i = j)) as [->|Hne].
  - rewrite sock_ready_set_ready_eq. destruct (sockets w !! j); cbn; congruence.
  - rewrite sock_ready_set_ready_ne by done. auto.
Qed.

Lemma inv_set_ready (w : World) (i : nat) (r : ReadyState) :
  r <> CONNECTING -> inv w -> inv (set_ready i r w).
Proof.
  intros Hr [B C F U]. split.
  - intros k Hk. cbn in *. rewrite length_alter. auto.
  - intros k Hk. apply connecting_set_ready in Hk as [_ Hk]; [|done].
    rewrite pending_set_ready. apply C, Hk.
  - intros k Hk. apply pending_set_ready in Hk. exact (F k Hk).
  - intros k l Hk Hl. apply pending_set_ready in Hk, Hl. eauto.
Qed.

(** Settling the one pending promise leaves none pending. *)
Lemma settle_unchanged (w : World) (i : nat) (p : PromiseState) :
  ~ pending w i -> settle i p w = w.
Proof.
  unfold pending, settle. destruct (sockets w !! i) as [s|]; [|done].
  cbn. destruct (promise s); intros H; try reflexivity. exfalso. auto.
Qed.

Lemma settle_pending (w : World) (i : nat) (p : PromiseState) :
  pending w i ->
  exists w1,
    same_conn (upd_this (set_socketConnecting false)
                 (set_sockets (alter (set_promise p) i (sockets w)) w)) w1
    /\ settle i p w = w1
    /\ timers w1 = timers w /\ now w1 = now w /\ nextHandle w1 = nextHandle w.
Proof.
  unfold pending, settle. destruct (sockets w !! i) as [s|]; [|done].
  cbn. destruct (promise s); intros H; try discriminate.
  eexists. split; [|split; [reflexivity|]].
  - destruct p; try apply same_conn_refl.
    destruct (caught s); [apply same_conn_emit|apply same_conn_refl].
  - destruct p; try destruct (caught s); repeat split.
Qed.

Lemma pending_dec (w : World) (i : nat) : pending w i \/ ~ pending w i.
Proof.
  unfold pending. destruct (sockets w !! i) as [s|]; cbn; [|right; congruence].
  destruct (promise s); (left; reflexivity) || (right; congruence).
Qed.

Lemma pending_after_settle (w : World) (i k : nat) (p : PromiseState) :
  p <> Pending ->
  pending (set_sockets (alter (set_promise p) i (sockets w)) w) k ->
  k <> i /\ pending w k.
Proof.
  intros Hp. unfold pending. cbn. destruct (decide (i = k)) as [->|Hne].
  - rewrite list_lookup_alter_eq. destruct (sockets w !! k); cbn; congruence.
  - rewrite list_lookup_alter_ne by done. auto.
Qed.

Lemma sock_ready_after_settle (w : World) (i k : nat) (p : PromiseState) :
  sock_ready (set_sockets (alter (set_promise p) i (sockets w)) w) k = sock_ready w k.
Proof.
  unfold sock_ready. cbn. destruct (decide (i = k)) as [->|Hne].
  - rewrite list_lookup_alter_eq. destruct (sockets w !! k); reflexivity.
  - rewrite list_lookup_alter_ne by done. reflexivity.
Qed.

Lemma inv_settle (w : World) (i : nat) (p : PromiseState) :
  p <> Pending -> ~ connecting w i -> inv w -> inv (settle i p w).
Proof.
  intros Hp Hc Hinv. destruct (pending_dec w i) as [Hpe|Hpe].
  2: { rewrite settle_unchanged by done. exact Hinv. }
  destruct (settle_pending w i p Hpe) as (w1 & Hsame & -> & _).
  eapply inv_same_conn; [exact Hsame|]. clear Hsame w1.
  destruct Hinv as [B C F U].
  assert (Hnone : forall k,
    ~ pending (set_sockets (alter (set_promise p) i (sockets w)) w) k).
  { intros k Hk. apply pending_after_settle in Hk as [Hne Hk]; [|done].
    apply Hne. eauto. }
  split.
  - intros k Hk. cbn in *. rewrite length_alter. auto.
  - intros k Hk. exfalso. unfold connecting in Hk.
    change (sock_ready (set_sockets (alter (set_promise p) i (sockets w)) w) k
            = Some CONNECTING) in Hk.
    rewrite sock_ready_after_settle in Hk.
    destruct (C k Hk) as [Hk' _]. rewrite (U k i Hk' Hpe) in Hk. auto.
  - intros k Hk. exfalso. exact (Hnone k Hk).
  - intros k l Hk. exfalso. exact (Hnone k Hk).
Qed.

Lemma inv_connect (b : bool) (w : World) : inv w -> inv (connect b w).
Proof.
  intros Hinv. unfold connect.
  destruct (socketConnecting (this w)) eqn:Hflag; [exact Hinv|].
  destruct Hinv as [B C F U].
  assert (Hnp : forall k, ~ pending w k) by (intros k Hk; specialize (F k Hk); congruence).
  assert (Hpend : forall k,
    promise <$> ((sockets w ++
       [{| readyState := CONNECTING; promise := Pending; caught := b |}]) !! k)
      = Some Pending -> k = length (sockets w)).
  { intros k Hk. destruct (decide (k = length (sockets w))); [done|].
    exfalso. apply (Hnp k). unfold pending.
    destruct (decide (k < length (sockets w))).
    - rewrite lookup_app_l in Hk by done. exact Hk.
    - rewrite lookup_ge_None_2 in Hk; [discriminate|rewrite length_app; cbn; lia]. }
  split; cbn.
  - intros k [= <-]. rewrite length_app. cbn. lia.
  - unfold connecting, pending, sock_ready. cbn. intros k Hk.
    destruct (decide (k = length (sockets w))) as [->|Hne].
    + rewrite lookup_app_r by lia. rewrite Nat.sub_diag. cbn. auto.
    + exfalso. destruct (decide (k < length (sockets w))).
      * rewrite lookup_app_l in Hk by done.
        destruct (C k Hk) as [Hp _]. exact (Hnp k Hp).
      * rewrite lookup_ge_None_2 in Hk; [discriminate|rewrite length_app; cbn; lia].
  - reflexivity.
  - unfold pending. cbn. intros k l Hk Hl.
    rewrite (Hpend k Hk), (Hpend l Hl). reflexivity.
Qed.

Lemma pending_ws_close (w : World) (i k : nat) :
  pending (ws_close i w) k <-> pending w k.
Proof.
  unfold ws_close. cbv zeta.
  destruct (sock_ready (emit (SocketClose i) w) i) as [[]|];
    try rewrite pending_set_ready; reflexivity.
Qed.

Lemma connecting_ws_close (w : World) (i k : nat) :
  connecting (ws_close i w) k -> k <> i /\ connecting w k.
Proof.
  unfold ws_close. cbv zeta.
  change (sock_ready (emit (SocketClose i) w) i) with (sock_ready w i).
  destruct (sock_ready w i) as [[]|] eqn:E;
    try (intros Hk; apply connecting_set_ready in Hk as [? ?]; [|done]; done).
  all: intros Hk; change (connecting w k) in Hk; split; [|done].
  all: intros ->; unfold connecting in Hk; congruence.
Qed.

Lemma inv_disconnect (w : World) : inv w -> inv (disconnect w).
Proof.
  intros Hinv. unfold disconnect.
  destruct (socket (this w)) as [i|] eqn:Hs; [|exact Hinv].
  cbv zeta.
  set (w2 := clearHeartBeat (upd_this (set_disconnectedManually true) w)).
  assert (Hsame : same_conn w w2).
  { eapply same_conn_trans; [|apply same_conn_clearHeartBeat]. repeat split. }
  assert (Hinv2 : inv w2) by (eapply inv_same_conn; eauto).
  assert (Hs2 : socket (this w2) = Some i) by (destruct Hsame as (_ & -> & _); done).
  clearbody w2. clear Hinv Hsame Hs w. destruct Hinv2 as [B C F U].
  assert (Hflag : socketConnecting (this (ws_close i w2)) = socketConnecting (this w2)).
  { unfold ws_close. cbv zeta.
    destruct (sock_ready (emit (SocketClose i) w2) i) as [[]|]; reflexivity. }
  split.
  - cbn. discriminate.
  - intros k Hk. exfalso.
    change (connecting (ws_close i w2) k) in Hk.
    apply connecting_ws_close in Hk as [Hne Hk].
    destruct (C k Hk) as [_ Hk']. congruence.
  - intros k Hk. change (pending (ws_close i w2) k) in Hk.
    apply pending_ws_close in Hk. cbn. rewrite Hflag. eauto.
  - intros k l Hk Hl.
    change (pending (ws_close i w2) k) in Hk.
    change (pending (ws_close i w2) l) in Hl.
    apply pending_ws_close in Hk, Hl. eauto.
Qed.

Lemma not_connecting_set_ready (w : World) (i : nat) (r : ReadyState) :
  r <> CONNECTING -> ~ connecting (set_ready i r w) i.
Proof. intros Hr Hk. apply connecting_set_ready in Hk as [? _]; done. Qed.

Lemma inv_onerror (w : World) (i : nat) :
  inv w -> inv (onerror i (set_ready i CLOSING w)).
Proof.
  intros Hinv. unfold onerror. apply inv_settle; [done| |].
  - intros Hk. change (connecting (set_ready i CLOSING w) i) in Hk.
    revert Hk. apply not_connecting_set_ready. done.
  - eapply inv_same_conn; [apply same_conn_emit|]. apply inv_set_ready; done.
Qed.

(** What [onopen] finds when the transport's contract lets it run. *)
Lemma onopen_when_connecting (w : World) (i : nat) :
  inv w -> connecting w i ->
  let w0 := set_ready i OPEN w in
  let w2 := setHeartBeat (upd_this (set_currentReconnectAttempts 0) w0) in
  onopen i w0 =
    (settle i Fulfilled
       (emit (ConsoleLog "websocket connected")
          (emit (SocketSend i (connectData (this w))) w2)), Normal)
  /\ pending w2 i.
Proof.
  intros Hinv Hc. destruct (inv_connecting w Hinv i Hc) as [Hp Hs].
  cbv zeta. unfold onopen. cbv zeta.
  set (w2 := setHeartBeat _).
  assert (Hs2 : socket (this w2) = Some i) by exact Hs.
  assert (Hr2 : sock_ready w2 i = Some OPEN).
  { change (sock_ready (set_ready i OPEN w) i = Some OPEN).
    rewrite sock_ready_set_ready_eq. unfold connecting, sock_ready in Hc.
    destruct (sockets w !! i); [reflexivity|discriminate]. }
  rewrite (socket_send_open _ w2 i Hs2 Hr2). split; [reflexivity|].
  change (pending (set_ready i OPEN w) i). apply pending_set_ready. exact Hp.
Qed.

Lemma inv_onopen (w : World) (i : nat) :
  inv w -> connecting w i -> inv (fst (onopen i (set_ready i OPEN w))).
Proof.
  intros Hinv Hc. destruct (onopen_when_connecting w i Hinv Hc) as [-> _].
  cbn [fst]. apply inv_settle; [done| |].
  - intros Hk. change (connecting (set_ready i OPEN w) i) in Hk.
    revert Hk. apply not_connecting_set_ready. done.
  - eapply inv_same_conn; [|apply (inv_set_ready w i OPEN); done].
    repeat split.
Qed.

Lemma inv_fire (t : Timer) (w : World) : inv w -> inv (fire t w).
Proof.
  intros Hinv. unfold fire. destruct (callback t).
  - apply inv_connect. eapply inv_same_conn; [apply same_conn_remove_timer|done].
  - eapply inv_same_conn; [|exact Hinv].
    eapply same_conn_trans; [apply same_conn_reschedule|apply same_conn_heartBeatTick].
Qed.

Lemma fold_fire_preserves (P : World -> Prop) :
  (forall t w, P w -> P (fire t w)) ->
  forall ts w, P w -> P (fold_left fire_if_pending ts w).
Proof.
  intros Hfire ts. induction ts as [|t ts IH]; intros w Hw; cbn; [done|].
  apply IH. unfold fire_if_pending. destruct (is_pending (handle t) w); auto.
Qed.

Lemma inv_tick (w : World) : inv w -> inv (tick w).
Proof.
  intros Hinv. unfold tick. cbv zeta.
  apply fold_fire_preserves; [apply inv_fire|].
  eapply inv_same_conn; [apply same_conn_set_now|done].
Qed.

Lemma inv_step (ev : Event) (w : World) :
  inv w -> enabled ev w = true -> inv (fst (step ev w)).
Proof.
  intros Hinv Hen. destruct ev; cbn [step fst].
  - apply inv_connect, Hinv.
  - apply inv_disconnect, Hinv.
  - eapply inv_same_conn; [apply same_conn_subscribe|done].
  - eapply inv_same_conn; [|exact Hinv]. repeat split.
  - eapply inv_same_conn; [|exact Hinv]. repeat split.
  - apply inv_onopen; [done|]. unfold connecting. cbn in Hen.
    destruct (sock_ready w i) as [[]|]; done.
  - apply inv_onerror, Hinv.
  - apply inv_set_ready; done.
  - eapply inv_same_conn; [apply same_conn_onclose|]. apply inv_set_ready; done.
  - eapply inv_same_conn; [apply same_conn_onmessage|done].
  - apply inv_tick, Hinv.
Qed.

Lemma inv_fresh (m : TradeSmartWS) : socket m = None -> inv (fresh_world m).
Proof.
  intros Hm. split; unfold connecting, pending, sock_ready; cbn.
  - rewrite Hm. discriminate.
  - discriminate.
  - discriminate.
  - discriminate.
Qed.

Lemma inv_reachable (m : TradeSmartWS) (w : World) :
  socket m = None -> reachable (fresh_world m) w -> inv w.
Proof.
  intros Hm Hr. induction Hr as [|w ev Hr IH Hen].
  - apply inv_fresh, Hm.
  - apply inv_step; assumption.
Qed.

(** ** What no run changes *)

Lemma constants_settle (i : nat) (p : PromiseState) (w : World) :
  constants (settle i p w) = constants w.
Proof. unfold settle. repeat case_match; reflexivity. Qed.

Lemma constants_connect (b : bool) (w : World) :
  constants (connect b w) = constants w.
Proof. unfold connect. case_match; reflexivity. Qed.

Lemma constants_clearHeartBeat (w : World) :
  constants (clearHeartBeat w) = constants w.
Proof. unfold clearHeartBeat. case_match; reflexivity. Qed.

Lemma constants_socket_send (frame : json) (w : World) :
  constants (fst (socket_send frame w)) = constants w.
Proof. unfold socket_send, ws_send. repeat case_match; reflexivity. Qed.

Lemma constants_onopen (i : nat) (w : World) :
  constants (fst (onopen i w)) = constants w.
Proof.
  unfold onopen. cbv zeta.
  set (w2 := setHeartBeat _).
  pose proof (constants_socket_send (connectData (this w2)) w2) as H.
  destruct (socket_send _ w2) as [w3 []]; cbn [fst] in *.
  - rewrite constants_settle. exact H.
  - exact H.
Qed.

Lemma constants_onclose (w : World) : constants (onclose w) = constants w.
Proof.
  unfold onclose, attemptReconnect. cbv zeta.
  repeat case_match; try apply constants_clearHeartBeat.
  all: etransitivity; [|apply constants_clearHeartBeat]; reflexivity.
Qed.

Lemma constants_disconnect (w : World) : constants (disconnect w) = constants w.
Proof.
  unfold disconnect, ws_close. cbv zeta.
  repeat case_match; try reflexivity.
  all: etransitivity;
    [|apply (constants_clearHeartBeat (upd_this (set_disconnectedManually true) w))];
    reflexivity.
Qed.

Lemma constants_subscribe (l : option (list Instrument)) (w : World) :
  constants (fst (subscribe l w)) = constants w.
Proof.
  unfold subscribe. repeat case_match; try reflexivity.
  all: match goal with
       | H : socket_send ?f ?w0 = _ |- _ =>
           pose proof (constants_socket_send f w0) as Hc; rewrite H in Hc; exact Hc
       end.
Qed.

Lemma constants_onmessage (r : ParseResult) (w : World) :
  constants (fst (onmessage r w)) = constants w.
Proof. unfold onmessage, call_slot. repeat case_match; simplify_eq/=; reflexivity. Qed.

Lemma constants_fire (t : Timer) (w : World) : constants (fire t w) = constants w.
Proof.
  unfold fire. case_match.
  - rewrite constants_connect. reflexivity.
  - unfold heartBeatTick. case_match; [|reflexivity].
    rewrite constants_socket_send. reflexivity.
Qed.

Lemma constants_tick (w : World) : constants (tick w) = constants w.
Proof.
  unfold tick. cbv zeta.
  apply (fold_fire_preserves (fun w' => constants w' = constants w)); [|reflexivity].
  intros t w' <-. apply constants_fire.
Qed.

Lemma constants_step (ev : Event) (w : World) :
  constants (fst (step ev w)) = constants w.
Proof.
  destruct ev; cbn [step fst].
  - apply constants_connect.
  - apply constants_disconnect.
  - apply constants_subscribe.
  - reflexivity.
  - reflexivity.
  - rewrite constants_onopen. reflexivity.
  - unfold onerror. rewrite constants_settle. reflexivity.
  - reflexivity.
  - rewrite constants_onclose. reflexivity.
  - apply constants_onmessage.
  - apply constants_tick.
Qed.

Lemma constants_reachable (w0 w : World) :
  reachable w0 w -> constants w = constants w0.
Proof.
  induction 1 as [|w ev Hr IH Hen]; [reflexivity|].
  rewrite constants_step. exact IH.
Qed.

Lemma reachable_trans (w0 w1 w2 : World) :
  reachable w0 w1 -> reachable w1 w2 -> reachable w0 w2.
Proof. intros H1 H2. induction H2; [done|]. econstructor; eauto. Qed.

Lemma reachable_run (evs : list Event) (w : World) :
  run_enabled evs w = true -> reachable w (run evs w).
Proof.
  revert w. induction evs as [|ev evs IH]; intros w H; cbn in *.
  - constructor.
  - apply andb_true_iff in H as [He Hr].
    eapply reachable_trans; [|apply IH, Hr].
    econstructor; [constructor|exact He].
Qed.

Lemma reachable_elapse (n : nat) (w : World) : reachable w (elapse n w).
Proof.
  revert w. induction n as [|n IH]; intros w; cbn; [constructor|].
  eapply reachable_trans; [|apply IH].
  apply (reachable_step w w Tick); [constructor|reflexivity].
Qed.

Lemma settle_fulfilled (w : World) (i : nat) :
  pending w i ->
  settle i Fulfilled w =
    upd_this (set_socketConnecting false)
      (set_sockets (alter (set_promise Fulfilled) i (sockets w)) w).
Proof.
  unfold pending, settle. destruct (sockets w !! i) as [s|]; [|done].
  cbn. destruct (promise s); intros H; try discriminate. reflexivity.
Qed.

(** Whenever a transport opens in a run of the manager, [onopen] returns
    normally having set the reconnect counter to 0, armed a new heartbeat
    interval of the heartbeat period, sent on that transport one frame, the
    authentication frame, and resolved the [connect()] promise that was
    pending (which takes the in-flight flag down). The frame is
    [{"t":"c","uid":...,"actid":...,"susertoken":...}] with the credentials
    the manager was built with, less those that were [undefined] then. *)
Theorem transport_open_authenticates
    (m : TradeSmartWS) (w : World) (i : nat)
    (Hm : socket m = None)
    (Hreach : reachable (fresh_world m) w)
    (Hopen : enabled (TransportOpen i) w = true) :
  let w' := fst (step (TransportOpen i) w) in
  snd (step (TransportOpen i) w) = Normal
  /\ currentReconnectAttempts (this w') = 0
  /\ heartBeatInterval (this w') = Some (nextHandle w)
  /\ timers w' = timers w ++
       [{| handle := nextHandle w;
           callback := HeartBeatTimer (timer_delay (heartBeatDuration m));
           due := now w + timer_delay (heartBeatDuration m) |}]
  /\ since w w' =
       [(now w, ConsoleLog "websocket connected");
        (now w, SocketSend i
                  (JObj (defined_properties
                           [("t", Some (JStr "c")); ("uid", JStr <$> uid m);
                            ("actid", JStr <$> actid m);
                            ("susertoken", JStr <$> susertoken m)]%string)))]
  /\ trace w' = since w w' ++ trace w
  /\ promise <$> (sockets w !! i) = Some Pending
  /\ promise <$> (sockets w' !! i) = Some Fulfilled
  /\ sock_ready w' i = Some OPEN
  /\ socketConnecting (this w') = false.
Proof.
  pose proof (inv_reachable m w Hm Hreach) as Hinv.
  pose proof (constants_reachable _ _ Hreach) as Hconst.
  assert (Hc : connecting w i).
  { unfold connecting. cbn in Hopen. destruct (sock_ready w i) as [[]|]; done. }
  destruct (inv_connecting w Hinv i Hc) as [Hp Hs].
  destruct (onopen_when_connecting w i Hinv Hc) as [Hon Hp2].
  cbv zeta in Hon, Hp2. cbv zeta. cbn [step]. rewrite Hon. cbn [fst snd].
  rewrite settle_fulfilled.
  2: { exact Hp2. }
  unfold constants in Hconst. cbn in Hconst.
  injection Hconst as Hu Ha Ht _ _ Hd _ _.
  assert (Hlt : i < length (sockets w)).
  { apply (inv_bound w Hinv). exact Hs. }
  destruct (lookup_lt_is_Some_2 (sockets w) i Hlt) as [s Hsi].
  repeat split.
  - cbn. unfold add_timer. cbn. rewrite Hd. reflexivity.
  - unfold since. cbn.
    replace (S (S (length (trace w))) - length (trace w)) with 2 by lia.
    cbn. unfold connectData. rewrite Hu, Ha, Ht. reflexivity.
  - unfold since. cbn.
    replace (S (S (length (trace w))) - length (trace w)) with 2 by lia.
    reflexivity.
  - exact Hp.
  - cbn. rewrite list_lookup_alter_eq, list_lookup_alter_eq, Hsi. reflexivity.
  - unfold sock_ready. cbn.
    rewrite list_lookup_alter_eq, list_lookup_alter_eq, Hsi. reflexivity.
Qed.

Lemma transport_open_authenticates_witness :
  socket (default_fields session) = None
  /\ reachable (fresh_world (default_fields session)) connecting_world
  /\ enabled (TransportOpen 0) connecting_world = true
  /\ since connecting_world (fst (step (TransportOpen 0) connecting_world)) =
     [(0, ConsoleLog "websocket connected");
      (0, SocketSend 0
            (JObj [("t", JStr "c"); ("uid", JStr "FA0001");
                   ("actid", JStr "FA0001");
                   ("susertoken", JStr "s3cr3t")]%string))].
Proof.
  assert (Hr : reachable (fresh_world (default_fields session)) connecting_world).
  { apply (reachable_run [CallConnect]). reflexivity. }
  split; [reflexivity|]. split; [exact Hr|]. split; [reflexivity|].
  apply (transport_open_authenticates (default_fields session) connecting_world 0
           eq_refl Hr eq_refl).
Defined.

(** C8, for a manager built as its constructor documents, from a
    [TradeSmartAPI] instance ([@param {TradeSmartAPI} api]). The constructor
    reads [api.uid], [api.actid] and [api.susertoken]; the class keeps
    [#actid] and [#susertoken] private and has a [uid] property only once
    [setSessionDetails] was called. So on the instance that holds the
    account id [u] and the session token [t], the one frame sent when the
    transport opens is [{"t":"c","uid":u}]: it carries neither [actid] nor
    [susertoken]. On an instance [setSessionDetails] was not called on, it
    is [{"t":"c"}]. The counter, the heartbeat and the promise are as
    for every manager. *)
Theorem api_instance_authenticates_without_credentials
    (uid0 pwd0 vc0 apikey0 totpkey0 u t name : string)
    (Hname : name <> ""%string) :
  let api0 := API.constructor uid0 pwd0 vc0 apikey0 totpkey0 in
  let api := API.setSessionDetails (Some u) (Some t) api0 in
  API.actid api = u
  /\ API.susertoken api = t
  /\ (exists w0,
        constructor (Some name) (Some (API.as_api_argument api)) = inr w0
        /\ run_enabled [CallConnect; TransportOpen 0] w0 = true
        /\ List.filter is_send (trace (run [CallConnect; TransportOpen 0] w0)) =
             [(0, SocketSend 0 (JObj [("t", JStr "c"); ("uid", JStr u)]%string))])
  /\ (exists w0,
        constructor (Some name) (Some (API.as_api_argument api0)) = inr w0
        /\ run_enabled [CallConnect; TransportOpen 0] w0 = true
        /\ List.filter is_send (trace (run [CallConnect; TransportOpen 0] w0)) =
             [(0, SocketSend 0 (JObj [("t", JStr "c")]%string))]).
Proof.
  cbv zeta. unfold constructor. cbv zeta.
  change (default "socket"%string (Some name)) with name.
  apply String.eqb_neq in Hname. rewrite Hname.
  split; [reflexivity|]. split; [reflexivity|].
  split; eexists; (split; [reflexivity|]); split; reflexivity.
Qed.

Lemma api_instance_authenticates_without_credentials_witness :
  "feed"%string <> ""%string
  /\ exists w0,
       constructor (Some "feed"%string)
         (Some (API.as_api_argument
                  (API.setSessionDetails (Some "FA0002"%string) (Some "tok"%string)
                     (API.constructor "FA0001" "pw" "vc" "key" "totp")))) = inr w0
       /\ run_enabled [CallConnect; TransportOpen 0] w0 = true
       /\ List.filter is_send (trace (run [CallConnect; TransportOpen 0] w0)) =
            [(0, SocketSend 0
                   (JObj [("t", JStr "c"); ("uid", JStr "FA0002")]%string))].
Proof.
  assert (Hn : "feed"%string <> ""%string) by discriminate.
  split; [exact Hn|].
  pose proof (api_instance_authenticates_without_credentials
                "FA0001" "pw" "vc" "key" "totp" "FA0002" "tok" "feed" Hn) as H.
  cbv zeta in H. apply H.
Defined.

(** C9, as the code has it. In every run of the manager a [connect()] call
    made while the in-flight flag is up returns at once and leaves
    everything as it is, no transport is created; so at most one transport
    is CONNECTING at any time, and it is the one [#socket] names. (The flag
    is down again once the promise has settled: a later [connect()] makes a
    new transport whatever the state of the earlier ones.) *)
Theorem connect_in_flight_creates_no_transport
    (m : TradeSmartWS) (w : World) (by_timer : bool)
    (Hm : socket m = None)
    (Hreach : reachable (fresh_world m) w) :
  (socketConnecting (this w) = true -> connect by_timer w = w)
  /\ (forall i j, sock_ready w i = Some CONNECTING ->
                  sock_ready w j = Some CONNECTING ->
                  i = j /\ socket (this w) = Some i
                  /\ socketConnecting (this w) = true).
Proof.
  split.
  - intros Hflag. unfold connect. rewrite Hflag. reflexivity.
  - intros i j Hi Hj.
    pose proof (inv_reachable m w Hm Hreach) as Hinv.
    destruct (inv_connecting w Hinv i Hi) as [Hpi Hsi].
    destruct (inv_connecting w Hinv j Hj) as [Hpj Hsj].
    split; [|split].
    + exact (inv_unique w Hinv i j Hpi Hpj).
    + exact Hsi.
    + exact (inv_flag w Hinv i Hpi).
Qed.

Lemma connect_in_flight_creates_no_transport_witness :
  socket (default_fields session) = None
  /\ reachable (fresh_world (default_fields session)) connecting_world
  /\ socketConnecting (this connecting_world) = true
  /\ connect false connecting_world = connecting_world.
Proof.
  assert (Hr : reachable (fresh_world (default_fields session)) connecting_world).
  { apply (reachable_run [CallConnect]). reflexivity. }
  split; [reflexivity|]. split; [exact Hr|]. split; [reflexivity|].
  apply (connect_in_flight_creates_no_transport (default_fields session)
           connecting_world false eq_refl Hr).
  reflexivity.
Defined.

(** C9 as stated fails in its last part: once the first [connect()] has
    resolved the flag is down, and a second [connect()] opens a second
    transport while the first one is still open. *)
Lemma second_connect_opens_second_transport :
  run_enabled [CallConnect; TransportOpen 0; CallConnect] idle_world = true
  /\ map readyState
       (sockets (run [CallConnect; TransportOpen 0; CallConnect] idle_world))
     = [OPEN; CONNECTING].
Proof. split; reflexivity. Qed.

(** ** Time *)

Lemma set_now_same (w : World) : set_now (now w) w = w.
Proof. destruct w. reflexivity. Qed.

Lemma tick_idle (w : World) :
  Forall (fun t => S (now w) < due t) (timers w) ->
  tick w = set_now (S (now w)) w.
Proof.
  intros H. unfold tick. cbv zeta. cbn [timers set_now now].
  replace (filter (fun t => due t <= S (now w)) (timers w)) with (@nil Timer);
    [reflexivity|].
  symmetry. induction H as [|t ts Ht _ IH]; [reflexivity|].
  rewrite filter_cons. destruct (decide (due t <= S (now w))); [lia|exact IH].
Qed.

(** While no timer comes due, time is all that passes. *)
Lemma elapse_idle (n : nat) (w : World) :
  Forall (fun t => now w + n < due t) (timers w) ->
  elapse n w = set_now (now w + n) w.
Proof.
  revert w. induction n as [|n IH]; intros w H; cbn [elapse].
  - rewrite Nat.add_0_r. symmetry. apply set_now_same.
  - rewrite tick_idle.
    2: { eapply Forall_impl; [exact H|]. cbn. intros; lia. }
    rewrite IH.
    2: { cbn. eapply Forall_impl; [exact H|]. cbn. intros; lia. }
    destruct w; cbn. rewrite Nat.add_succ_r. reflexivity.
Qed.

Lemma elapse_add (a b : nat) (w : World) :
  elapse (a + b) w = elapse b (elapse a w).
Proof. revert w. induction a as [|a IH]; intros w; cbn; [reflexivity|apply IH]. Qed.

Lemma elapse_no_timers (n : nat) (w : World) :
  timers w = [] -> elapse n w = set_now (now w + n) w.
Proof. intros H. apply elapse_idle. rewrite H. constructor. Qed.

Lemma elapse_idle_b (n : nat) (w : World) :
  forallb (fun t => now w + n <? due t) (timers w) = true ->
  elapse n w = set_now (now w + n) w.
Proof.
  intros H. apply elapse_idle. apply Forall_forall. intros t Ht.
  rewrite forallb_forall in H. apply Nat.ltb_lt, H.
  apply list_elem_of_In. exact Ht.
Qed.

Lemma pos_by_computation (n : nat) : (0 <? n) = true -> 0 < n.
Proof. apply Nat.ltb_lt. Qed.

(** A lone reconnect timer runs [connect()] when its delay is over, and not
    before. *)
Lemma tick_fires_reconnect (w : World) (h : nat) :
  timers w = [{| handle := h; callback := ReconnectTimer; due := S (now w) |}] ->
  tick w = connect true (set_timers [] (set_now (S (now w)) w)).
Proof.
  intros H. unfold tick. cbv zeta. cbn [timers set_now now]. rewrite H.
  rewrite filter_cons. cbn [due]. destruct (decide (S (now w) <= S (now w))); [|lia].
  simpl (filter _ []). cbn [fold_left].
  unfold fire_if_pending, is_pending. cbn. rewrite H. cbn.
  rewrite Nat.eqb_refl. cbn. unfold fire. cbn. unfold remove_timer. cbn. rewrite H.
  rewrite filter_cons. cbn. destruct (decide (h <> h)); [done|].
  simpl (filter _ []). reflexivity.
Qed.

Lemma elapse_fires_reconnect (w : World) (h d : nat) :
  0 < d ->
  timers w = [{| handle := h; callback := ReconnectTimer; due := now w + d |}] ->
  elapse d w = connect true (set_timers [] (set_now (now w + d) w)).
Proof.
  intros Hd H. destruct d as [|d]; [lia|].
  replace (S d) with (d + 1) at 1 by lia. rewrite elapse_add.
  rewrite (elapse_idle d w).
  2: { rewrite H. repeat constructor. cbn. lia. }
  cbn [elapse]. rewrite (tick_fires_reconnect _ h).
  2: { cbn. rewrite H. rewrite Nat.add_succ_r. reflexivity. }
  destruct w; cbn. rewrite Nat.add_succ_r. reflexivity.
Qed.

(** A lone heartbeat interval runs its callback when it is due and is armed
    again one period later. *)
Lemma tick_fires_heartbeat (w : World) (h p : nat) :
  timers w = [{| handle := h; callback := HeartBeatTimer p; due := S (now w) |}] ->
  tick w =
    heartBeatTick
      (set_timers [{| handle := h; callback := HeartBeatTimer p;
                      due := S (now w) + p |}]
         (set_now (S (now w)) w)).
Proof.
  intros H. unfold tick. cbv zeta. cbn [timers set_now now]. rewrite H.
  rewrite filter_cons. cbn [due]. destruct (decide (S (now w) <= S (now w))); [|lia].
  simpl (filter _ []). cbn [fold_left].
  unfold fire_if_pending, is_pending. cbn. rewrite H. cbn.
  rewrite Nat.eqb_refl. cbn. unfold fire. cbn. unfold reschedule. cbn. rewrite H.
  cbn. rewrite Nat.eqb_refl. reflexivity.
Qed.

Lemma elapse_fires_heartbeat (w : World) (h p d : nat) :
  0 < d ->
  timers w = [{| handle := h; callback := HeartBeatTimer p; due := now w + d |}] ->
  elapse d w =
    heartBeatTick
      (set_timers [{| handle := h; callback := HeartBeatTimer p;
                      due := now w + d + p |}]
         (set_now (now w + d) w)).
Proof.
  intros Hd H. destruct d as [|d]; [lia|].
  replace (S d) with (d + 1) at 1 by lia. rewrite elapse_add.
  rewrite (elapse_idle d w).
  2: { rewrite H. repeat constructor. cbn. lia. }
  cbn [elapse]. rewrite (tick_fires_heartbeat _ h p).
  2: { cbn. rewrite H. rewrite Nat.add_succ_r. reflexivity. }
  destruct w; cbn. rewrite Nat.add_succ_r. reflexivity.
Qed.

(** ** A transport that never opens *)

#[local] Arguments Nat.ltb : simpl never.

Lemma fail_to_open_spec (latency : nat) (w : World) (i : nat) :
  awaiting w i ->
  let w1 := fail_to_open latency i w in
  socket (this w1) = Some i
  /\ length (sockets w1) = length (sockets w)
  /\ heartBeatInterval (this w1) = None
  /\ disconnectedManually (this w1) = false
  /\ socketConnecting (this w1) = false
  /\ constants w1 = constants w
  /\ now w1 = now w + latency
  /\ creation_times w1 = creation_times w
  /\ (if currentReconnectAttempts (this w) <? reconnectAttempts (this w)
      then currentReconnectAttempts (this w1) = S (currentReconnectAttempts (this w))
           /\ timers w1 = [{| handle := nextHandle w; callback := ReconnectTimer;
                              due := now w + latency
                                     + timer_delay (reconnectInterval (this w)) |}]
      else currentReconnectAttempts (this w1) = currentReconnectAttempts (this w)
           /\ timers w1 = []).
Proof.
  intros [Hs Hl Hr Hp Ht Hh Hm]. cbv zeta. unfold fail_to_open.
  rewrite (elapse_no_timers latency w Ht).
  unfold pending in Hp. unfold sock_ready in Hr.
  destruct (sockets w !! i) as [s|] eqn:Hlook; [|discriminate].
  cbn in Hr, Hp. injection Hr as Hr. injection Hp as Hp.
  destruct w as [m ss ts nh t tr]. destruct m. destruct s as [rs ps cs].
  cbn in *. subst.
  unfold onerror, settle. cbn. rewrite list_lookup_alter_eq, Hlook. cbn.
  destruct cs, debug0; unfold onclose, attemptReconnect, clearHeartBeat; cbn;
    destruct (currentReconnectAttempts0 <? reconnectAttempts0); cbn;
    rewrite ?length_alter; repeat split.
Qed.

Lemma constants_fields (w w' : World) :
  constants w' = constants w ->
  reconnectInterval (this w') = reconnectInterval (this w)
  /\ reconnectAttempts (this w') = reconnectAttempts (this w).
Proof. unfold constants. intros H. injection H. auto. Qed.

(** One failed attempt below the maximum: the backoff timer is the only
    timer, and when it is due [connect()] makes the next transport. *)
Lemma failed_attempt_reconnects (latency : nat) (w : World) (i : nat) :
  awaiting w i ->
  currentReconnectAttempts (this w) < reconnectAttempts (this w) ->
  let w1 := fail_to_open latency i w in
  let gap := latency + timer_delay (reconnectInterval (this w)) in
  exists t w2,
    timers w1 = [t]
    /\ elapse (due t - now w1) w1 = w2
    /\ awaiting w2 (S i)
    /\ currentReconnectAttempts (this w2) = S (currentReconnectAttempts (this w))
    /\ constants w2 = constants w
    /\ now w2 = now w + gap
    /\ creation_times w2 = (now w + gap) :: creation_times w.
Proof.
  intros Haw Hlt. cbv zeta.
  destruct (fail_to_open_spec latency w i Haw)
    as (Hs & Hlen & Hh & Hm & Hf & Hc & Hn & Hct & Hif).
  apply Nat.ltb_lt in Hlt. rewrite Hlt in Hif. destruct Hif as [Hcnt Ht].
  set (w1 := fail_to_open latency i w) in *. clearbody w1.
  set (d := timer_delay (reconnectInterval (this w))) in *.
  assert (Hd : 0 < d) by (unfold d, timer_delay; lia).
  clearbody d.
  eexists _, _. split; [exact Ht|]. split; [reflexivity|].
  cbn [due]. rewrite Hn.
  replace (now w + latency + d - (now w + latency)) with d by lia.
  rewrite (elapse_fires_reconnect w1 (nextHandle w) d Hd).
  2: { rewrite Ht, Hn. reflexivity. }
  destruct Haw as [_ Hl _ _ _ _ _].
  unfold connect. cbn. rewrite Hf. cbn.
  repeat split; cbn; try assumption.
  - rewrite Hlen. congruence.
  - rewrite length_app, Hlen. cbn. lia.
  - unfold sock_ready. cbn. rewrite lookup_app_r by lia.
    rewrite Hlen, <- Hl, Nat.sub_diag. reflexivity.
  - unfold pending. cbn. rewrite lookup_app_r by lia.
    rewrite Hlen, <- Hl, Nat.sub_diag. reflexivity.
  - rewrite Hn. lia.
  - unfold creation_times in *. cbn. rewrite Hct, Hn. f_equal. lia.
Qed.

Lemma failing_transport_spec (latency k : nat) :
  forall (rounds : nat) (w : World) (i : nat),
    awaiting w i ->
    reconnectAttempts (this w) = currentReconnectAttempts (this w) + k ->
    k < rounds ->
    let gap := latency + timer_delay (reconnectInterval (this w)) in
    let w' := failing_transport rounds latency w in
    creation_times w' =
      rev (map (fun j => now w + j * gap) (seq 1 k)) ++ creation_times w
    /\ currentReconnectAttempts (this w') = reconnectAttempts (this w)
    /\ timers w' = [].
Proof.
  induction k as [|k IH]; intros rounds w i Haw Hk Hr; cbv zeta.
  - destruct rounds as [|r]; [lia|]. cbn [failing_transport].
    rewrite (aw_socket w i Haw).
    destruct (fail_to_open_spec latency w i Haw)
      as (_ & _ & _ & _ & _ & _ & _ & Hct & Hif).
    assert (Hge : (currentReconnectAttempts (this w) <? reconnectAttempts (this w)) = false)
      by (apply Nat.ltb_ge; lia).
    rewrite Hge in Hif. destruct Hif as [Hcnt Ht].
    cbv zeta. rewrite Ht. split; [exact Hct|]. split; [lia|exact Ht].
  - destruct rounds as [|r]; [lia|]. cbn [failing_transport].
    rewrite (aw_socket w i Haw).
    destruct (failed_attempt_reconnects latency w i Haw)
      as (t & w2 & Ht & Hw2 & Haw2 & Hcnt & Hc & Hn & Hct); [lia|].
    cbv zeta. rewrite Ht, Hw2.
    destruct (constants_fields _ _ Hc) as [HR HN].
    destruct (IH r w2 (S i) Haw2) as (Hct' & Hcnt' & Ht'); [lia|lia|].
    cbv zeta in Hct'. rewrite HR, Hn, Hct in Hct'.
    rewrite Hct', Hcnt', HN. repeat split; [|exact Ht'].
    set (gap := latency + timer_delay (reconnectInterval (this w))).
    change (seq 1 (S k)) with (1 :: seq 2 k).
    rewrite <- (seq_shift k 1). cbn [map rev]. rewrite List.map_map.
    rewrite <- app_assoc. cbn [app]. f_equal.
    + f_equal. apply map_ext. intros j. lia.
    + f_equal. lia.
Qed.

Lemma awaiting_first_connect (m : TradeSmartWS) :
  socketConnecting m = false -> heartBeatInterval m = None ->
  awaiting (connect false (fresh_world m)) 0.
Proof.
  intros Hf Hh. unfold connect. cbn. rewrite Hf.
  split; cbn; try reflexivity. exact Hh.
Qed.

(** C6. A manager whose reconnect counter is 0 and whose maximum is [N],
    on a transport that always fails to open (each transport errors and
    closes [latency] ms after it was made): after the first [connect()]
    exactly [N] more transports are made, each one backoff interval after
    the failure before it; then the counter is [N], no timer is pending,
    and however long one waits nothing happens any more. The handlers
    involved cannot throw. *)
Theorem reconnect_attempts_stop_at_the_maximum
    (m : TradeSmartWS) (latency rounds : nat)
    (Hflag : socketConnecting m = false)
    (Hhb : heartBeatInterval m = None)
    (Hzero : currentReconnectAttempts m = 0)
    (Hrounds : reconnectAttempts m < rounds) :
  let N := reconnectAttempts m in
  let gap := latency + timer_delay (reconnectInterval m) in
  let w := failing_transport rounds latency (connect false (fresh_world m)) in
  rev (creation_times w) = map (fun k => k * gap) (seq 0 (S N))
  /\ length (creation_times w) = 1 + N
  /\ currentReconnectAttempts (this w) = N
  /\ timers w = []
  /\ forall n, elapse n w = set_now (now w + n) w.
Proof.
  cbv zeta.
  pose proof (awaiting_first_connect m Hflag Hhb) as Haw.
  set (w0 := connect false (fresh_world m)) in *.
  assert (Hc : constants w0 = constants (fresh_world m))
    by apply constants_connect.
  destruct (constants_fields _ _ Hc) as [HR HN]. cbn in HR, HN.
  assert (Hcnt : currentReconnectAttempts (this w0) = 0).
  { unfold w0, connect. cbn. rewrite Hflag. exact Hzero. }
  assert (Hnow : now w0 = 0).
  { unfold w0, connect. cbn. rewrite Hflag. reflexivity. }
  assert (Hct0 : creation_times w0 = [0]).
  { unfold w0, connect. cbn. rewrite Hflag. reflexivity. }
  destruct (failing_transport_spec latency (reconnectAttempts m) rounds w0 0 Haw)
    as (Hct & Hfin & Ht); [lia|lia|].
  cbv zeta in Hct. rewrite HR, Hnow, Hct0 in Hct. rewrite HN in Hfin.
  clearbody w0.
  assert (Hrev : rev (creation_times (failing_transport rounds latency w0)) =
                 map (fun k => k * (latency + timer_delay (reconnectInterval m)))
                     (seq 0 (S (reconnectAttempts m)))).
  { rewrite Hct, rev_app_distr, rev_involutive. cbn [rev app seq map].
    reflexivity. }
  split; [exact Hrev|]. split; [|split; [exact Hfin|split; [exact Ht|]]].
  - rewrite <- length_rev, Hrev, length_map, length_seq. reflexivity.
  - intros n. apply elapse_no_timers, Ht.
Qed.

Lemma reconnect_attempts_stop_at_the_maximum_witness :
  socketConnecting two_attempts = false
  /\ heartBeatInterval two_attempts = None
  /\ currentReconnectAttempts two_attempts = 0
  /\ reconnectAttempts two_attempts < 5
  /\ length (creation_times
       (failing_transport 5 40 (connect false (fresh_world two_attempts)))) = 3.
Proof.
  split; [reflexivity|]. split; [reflexivity|]. split; [reflexivity|].
  split; [cbn; lia|].
  apply (reconnect_attempts_stop_at_the_maximum two_attempts 40 5
           eq_refl eq_refl eq_refl).
  cbn. lia.
Defined.

(** ** Manual disconnect during the backoff *)

(** C2 at its failing input. [disconnect()] called while the backoff timer
    is pending raises the manual flag and drops the transport, but the
    timer stays: when it is due it calls [connect()], which lowers the
    manual flag again and makes a new transport; once that one opens the
    heartbeat runs on it. *)
Theorem disconnect_in_backoff_leaves_the_timer :
  timers backoff_world =
    [{| handle := 1; callback := ReconnectTimer; due := backoff_ms |}]
  /\ disconnectedManually (this disconnected_world) = true
  /\ socket (this disconnected_world) = None
  /\ timers disconnected_world = timers backoff_world
  /\ since disconnected_world (elapse backoff_ms disconnected_world) =
       [(backoff_ms, NewWebSocket 1 "wss://v2api.tradesmartonline.in/NorenWSTP/")]
  /\ disconnectedManually (this (elapse backoff_ms disconnected_world)) = false
  /\ List.filter is_heartbeat
       (since disconnected_world
          (elapse heartbeat_ms
             (run [TransportOpen 1] (elapse backoff_ms disconnected_world)))) =
       [(backoff_ms + heartbeat_ms, SocketSend 1 (JObj [("t", JStr "h")]%string))].
Proof.
  assert (He : elapse backoff_ms disconnected_world =
               connect true (set_timers [] (set_now backoff_ms disconnected_world))).
  { apply (elapse_fires_reconnect disconnected_world 1 backoff_ms).
    - apply pos_by_computation. vm_compute. reflexivity.
    - vm_compute. reflexivity. }
  rewrite He.
  split; [vm_compute; reflexivity|]. split; [vm_compute; reflexivity|]. split; [vm_compute; reflexivity|].
  split; [vm_compute; reflexivity|]. split; [vm_compute; reflexivity|]. split; [vm_compute; reflexivity|].
  set (w1 := run [TransportOpen 1] _).
  assert (Hh : elapse heartbeat_ms w1 =
    heartBeatTick
      (set_timers [{| handle := 2; callback := HeartBeatTimer heartbeat_ms;
                      due := now w1 + heartbeat_ms + heartbeat_ms |}]
         (set_now (now w1 + heartbeat_ms) w1))).
  { apply (elapse_fires_heartbeat w1 2 heartbeat_ms heartbeat_ms).
    - apply pos_by_computation. vm_compute. reflexivity.
    - vm_compute. reflexivity. }
  rewrite Hh. vm_compute. reflexivity.
Qed.

(** ** Two heartbeat intervals *)

(** C7 at its failing input. [#setHeartBeat] overwrites the handle of the
    interval of the first open without clearing it, so two intervals tick:
    in one heartbeat period two heartbeat frames go out on the open
    transport. *)
Theorem two_heartbeats_in_one_period :
  run_enabled [CallConnect; TransportOpen 0; CallConnect; TransportOpen 1]
    idle_world = true
  /\ socket_is_open twice_connected_world = true
  /\ map handle (timers twice_connected_world) = [0; 1]
  /\ heartBeatInterval (this twice_connected_world) = Some 1
  /\ List.filter is_heartbeat
       (since twice_connected_world (elapse heartbeat_ms twice_connected_world)) =
     [(heartbeat_ms, SocketSend 1 (JObj [("t", JStr "h")]%string));
      (heartbeat_ms, SocketSend 1 (JObj [("t", JStr "h")]%string))].
Proof.
  split; [vm_compute; reflexivity|]. split; [vm_compute; reflexivity|].
  split; [vm_compute; reflexivity|]. split; [vm_compute; reflexivity|].
  pose proof (elapse_idle_b (heartbeat_ms - 1) twice_connected_world) as Hidle.
  replace heartbeat_ms with (heartbeat_ms - 1 + 1) at 1 by (vm_compute; reflexivity).
  rewrite elapse_add, Hidle by (vm_compute; reflexivity).
  vm_compute. reflexivity.
Qed.

(** ** No subscription registry *)



Lemma nss_same_trace (w w' : World) : trace w' = trace w -> no_subscribe_since w w'.
Proof. intros H. exists []. split; [exact H|reflexivity]. Qed.



















(** ** The heartbeat where it works *)

(** The guard of the interval's callback: nothing is sent unless [#socket]
    is an OPEN transport. *)
Lemma heartBeatTick_not_open (w : World) :
  socket_is_open w = false -> heartBeatTick w = w.
Proof. intros H. unfold heartBeatTick. rewrite H. reflexivity. Qed.

Lemma heartBeatTick_open (w : World) (i : nat) :
  socket (this w) = Some i -> sock_ready w i = Some OPEN ->
  heartBeatTick w = emit (SocketSend i heartBeatData) w.
Proof.
  intros Hs Hr. unfold heartBeatTick.
  assert (Ho : socket_is_open w = true) by (apply socket_is_open_spec; eauto).
  rewrite Ho, (socket_send_open _ w i Hs Hr). reflexivity.
Qed.

(** Both ways out of the open state clear the interval. *)
Lemma clearHeartBeat_spec (w : World) (h : nat) :
  heartBeatInterval (this w) = Some h ->
  heartBeatInterval (this (clearHeartBeat w)) = None
  /\ Forall (fun t => handle t <> h) (timers (clearHeartBeat w)).
Proof.
  intros H. unfold clearHeartBeat. rewrite H. split; [reflexivity|].
  cbn. apply Forall_forall. intros t Ht. apply list_elem_of_filter in Ht as [Ht _].
  exact Ht.
Qed.

(** X10. With the one interval that [onopen] arms and nothing else going
    on, the open transport gets exactly one heartbeat frame per period: the
    frames of the first [k] periods are [k], one at the end of each. *)
Lemma heartbeat_once_per_period (p : nat) (Hp : 0 < p) :
  forall (k : nat) (w : World) (i h : nat),
    socket (this w) = Some i ->
    sock_ready w i = Some OPEN ->
    timers w = [{| handle := h; callback := HeartBeatTimer p; due := now w + p |}] ->
    trace (elapse (k * p) w) =
      rev (map (fun j => (now w + j * p, SocketSend i heartBeatData)) (seq 1 k))
      ++ trace w.
Proof.
  induction k as [|k IH]; intros w i h Hs Hr Ht; [reflexivity|].
  replace (S k * p) with (p + k * p) by lia. rewrite elapse_add.
  rewrite (elapse_fires_heartbeat w h p p Hp Ht).
  set (w1 := set_timers _ _).
  rewrite (heartBeatTick_open w1 i Hs Hr).
  rewrite (IH (emit (SocketSend i heartBeatData) w1) i h Hs Hr).
  2: { cbn. reflexivity. }
  cbn [emit trace now w1 set_timers set_now].
  change (seq 1 (S k)) with (1 :: seq 2 k).
  rewrite <- (seq_shift k 1). cbn [map rev]. rewrite List.map_map.
  rewrite <- app_assoc. cbn [app]. f_equal.
  - f_equal. apply map_ext. intros j. f_equal. lia.
  - f_equal. f_equal. lia.
Qed.

(** ** Manual disconnect while connecting *)

(** How many successors [a] has on top of [b]. *)
Ltac surplus a b :=
  match a with
  | b => constr:(0)
  | S ?a' => let n := surplus a' b in constr:(S n)
  end.

(** X11. [disconnect()] during the handshake aborts it; the error and the
    close the transport then reports find the manual flag up, so no
    reconnect is scheduled, no transport is made, nothing is sent and
    nothing is left to happen. *)
Lemma disconnect_while_connecting_stops (w : World) (i : nat) :
  awaiting w i ->
  let w1 := run [CallDisconnect; TransportError i; TransportClose i] w in
  run_enabled [CallDisconnect; TransportError i; TransportClose i] w = true
  /\ socket (this w1) = None
  /\ sock_ready w1 i = Some CLOSED
  /\ timers w1 = []
  /\ creation_times w1 = creation_times w
  /\ List.filter is_send (since w w1) = []
  /\ forall n, elapse n w1 = set_now (now w1 + n) w1.
Proof.
  intros [Hs Hl Hr Hp Ht Hh Hm]. cbv zeta.
  unfold pending in Hp. unfold sock_ready in Hr.
  destruct (sockets w !! i) as [s|] eqn:Hlook; [|discriminate].
  cbn in Hr, Hp. injection Hr as Hr. injection Hp as Hp.
  destruct w as [m ss ts nh t tr]. destruct m. destruct s as [rs ps cs].
  cbn in *. subst.
  unfold disconnect, clearHeartBeat, ws_close, sock_ready. cbn. rewrite Hlook. cbn.
  unfold sock_ready. cbn. rewrite !list_lookup_alter_eq, Hlook. cbn.
  unfold onerror, settle. cbn. rewrite !list_lookup_alter_eq, Hlook. cbn.
  assert (Htimers : forall w', timers w' = [] ->
            forall n, elapse n w' = set_now (now w' + n) w')
    by (intros w' H n; apply elapse_no_timers, H).
  destruct cs, debug0; unfold onclose, clearHeartBeat, since; cbn;
    rewrite ?list_lookup_alter_eq, ?Hlook; cbn;
    repeat split; try (apply Htimers; reflexivity).
  all: match goal with
       | |- context [take (?a - ?b) _] =>
           let n := surplus a b in replace (a - b) with n by lia
       end; reflexivity.
Qed.

(** ** The reconnect counter stays within its maximum *)

Lemma same_counter_refl (w : World) : same_counter w w.
Proof. split; reflexivity. Qed.

Lemma same_counter_trans (w1 w2 w3 : World) :
  same_counter w1 w2 -> same_counter w2 w3 -> same_counter w1 w3.
Proof. intros [? ?] [? ?]. split; congruence. Qed.

Lemma bounded_same_counter (w w' : World) :
  same_counter w w' -> bounded w -> bounded w'.
Proof. unfold bounded. intros [-> ->]. auto. Qed.

Lemma same_counter_settle (i : nat) (p : PromiseState) (w : World) :
  same_counter w (settle i p w).
Proof. unfold settle. repeat case_match; split; reflexivity. Qed.

Lemma same_counter_connect (b : bool) (w : World) : same_counter w (connect b w).
Proof. unfold connect. case_match; split; reflexivity. Qed.

Lemma same_counter_clearHeartBeat (w : World) : same_counter w (clearHeartBeat w).
Proof. unfold clearHeartBeat. case_match; split; reflexivity. Qed.

Lemma same_counter_socket_send (frame : json) (w : World) :
  same_counter w (fst (socket_send frame w)).
Proof. unfold socket_send, ws_send. repeat case_match; split; reflexivity. Qed.

Lemma same_counter_disconnect (w : World) : same_counter w (disconnect w).
Proof.
  unfold disconnect, ws_close. cbv zeta.
  destruct (same_counter_clearHeartBeat (upd_this (set_disconnectedManually true) w))
    as [H1 H2].
  repeat case_match; split; try reflexivity; first [exact H1|exact H2].
Qed.

Lemma same_counter_subscribe (l : option (list Instrument)) (w : World) :
  same_counter w (fst (subscribe l w)).
Proof.
  unfold subscribe. repeat case_match; try apply same_counter_refl.
  all: match goal with
       | H : socket_send ?f ?w0 = _ |- _ =>
           pose proof (same_counter_socket_send f w0) as Hc; rewrite H in Hc; exact Hc
       end.
Qed.

Lemma same_counter_onmessage (r : ParseResult) (w : World) :
  same_counter w (fst (onmessage r w)).
Proof. unfold onmessage, call_slot. repeat case_match; simplify_eq/=; split; reflexivity. Qed.

Lemma bounded_onopen (i : nat) (w : World) : bounded (fst (onopen i w)).
Proof.
  unfold onopen. cbv zeta. set (w2 := setHeartBeat _).
  assert (H2 : bounded w2) by (unfold bounded, w2; cbn; lia).
  clearbody w2.
  pose proof (same_counter_socket_send (connectData (this w2)) w2) as H3.
  destruct (socket_send _ w2) as [w3 []]; cbn [fst] in *.
  - eapply bounded_same_counter; [apply same_counter_settle|].
    eapply bounded_same_counter; [|eapply bounded_same_counter; [exact H3|exact H2]].
    split; reflexivity.
  - eapply bounded_same_counter; [exact H3|exact H2].
Qed.

Lemma bounded_attemptReconnect (w : World) : bounded w -> bounded (attemptReconnect w).
Proof.
  unfold bounded, attemptReconnect. intros H.
  destruct (currentReconnectAttempts (this w) <? reconnectAttempts (this w)) eqn:E.
  - apply Nat.ltb_lt in E. cbn. lia.
  - exact H.
Qed.

Lemma bounded_onclose (w : World) : bounded w -> bounded (onclose w).
Proof.
  intros H. unfold onclose. cbv zeta.
  assert (H1 : bounded (clearHeartBeat w))
    by (eapply bounded_same_counter; [apply same_counter_clearHeartBeat|exact H]).
  set (w1 := clearHeartBeat w) in *. clearbody w1.
  repeat case_match; try apply bounded_attemptReconnect; exact H1.
Qed.

Lemma bounded_fire (t : Timer) (w : World) : bounded w -> bounded (fire t w).
Proof.
  intros H. unfold fire. case_match.
  - eapply bounded_same_counter; [apply same_counter_connect|exact H].
  - unfold heartBeatTick. case_match; [|exact H].
    eapply bounded_same_counter; [apply same_counter_socket_send|exact H].
Qed.

Lemma bounded_step (ev : Event) (w : World) : bounded w -> bounded (fst (step ev w)).
Proof.
  intros H. destruct ev; cbn [step fst].
  - eapply bounded_same_counter; [apply same_counter_connect|exact H].
  - eapply bounded_same_counter; [apply same_counter_disconnect|exact H].
  - eapply bounded_same_counter; [apply same_counter_subscribe|exact H].
  - exact H.
  - exact H.
  - apply bounded_onopen.
  - unfold onerror. eapply bounded_same_counter; [apply same_counter_settle|exact H].
  - exact H.
  - apply bounded_onclose. exact H.
  - eapply bounded_same_counter; [apply same_counter_onmessage|exact H].
  - unfold tick. cbv zeta. apply fold_fire_preserves; [apply bounded_fire|exact H].
Qed.

(** X1. In every run of a manager that starts with its reconnect counter
    within the maximum, the counter never exceeds the maximum: it is only
    ever raised by [#attemptReconnect] below the maximum and reset by
    [onopen]. *)
Theorem reconnect_counter_never_exceeds_maximum
    (m : TradeSmartWS) (w : World)
    (Hstart : currentReconnectAttempts m <= reconnectAttempts m)
    (Hreach : reachable (fresh_world m) w) :
  currentReconnectAttempts (this w) <= reconnectAttempts m.
Proof.
  assert (Hb : bounded w).
  { induction Hreach as [|w ev Hr IH Hen]; [exact Hstart|].
    apply bounded_step, IH. }
  pose proof (constants_reachable _ _ Hreach) as Hc.
  destruct (constants_fields _ _ Hc) as [_ HN]. cbn in HN.
  unfold bounded in Hb. lia.
Qed.

Lemma reconnect_counter_never_exceeds_maximum_witness :
  currentReconnectAttempts two_attempts <= reconnectAttempts two_attempts
  /\ reachable (fresh_world two_attempts)
       (run [CallConnect; TransportError 0; TransportClose 0]
            (fresh_world two_attempts))
  /\ currentReconnectAttempts
       (this (run [CallConnect; TransportError 0; TransportClose 0]
                  (fresh_world two_attempts)))
     <= reconnectAttempts two_attempts.
Proof.
  assert (Hs : currentReconnectAttempts two_attempts <= reconnectAttempts two_attempts)
    by (cbn; lia).
  assert (Hr : reachable (fresh_world two_attempts)
                 (run [CallConnect; TransportError 0; TransportClose 0]
                      (fresh_world two_attempts)))
    by (apply reachable_run; reflexivity).
  split; [exact Hs|]. split; [exact Hr|].
  exact (reconnect_counter_never_exceeds_maximum two_attempts _ Hs Hr).
Defined.

(** X2. No run of the manager changes the session credentials or the
    settings: the class assigns [#uid], [#actid], [#susertoken], the two
    intervals, the maximum, the URL and the debug flag at construction and
    never again. *)
Theorem session_and_settings_never_change
    (w0 w : World) (Hreach : reachable w0 w) :
  uid (this w) = uid (this w0)
  /\ actid (this w) = actid (this w0)
  /\ susertoken (this w) = susertoken (this w0)
  /\ reconnectInterval (this w) = reconnectInterval (this w0)
  /\ reconnectAttempts (this w) = reconnectAttempts (this w0)
  /\ heartBeatDuration (this w) = heartBeatDuration (this w0)
  /\ debug (this w) = debug (this w0)
  /\ webSocketURL (this w) = webSocketURL (this w0).
Proof.
  pose proof (constants_reachable _ _ Hreach) as H. unfold constants in H.
  injection H. intros. repeat split; assumption.
Qed.

Lemma session_and_settings_never_change_witness :
  reachable idle_world twice_connected_world
  /\ uid (this twice_connected_world) = uid (this idle_world).
Proof.
  assert (Hr : reachable idle_world twice_connected_world)
    by (apply reachable_run; reflexivity).
  split; [exact Hr|].
  apply (session_and_settings_never_change idle_world twice_connected_world Hr).
Defined.

(** ** disconnect *)

Lemma socket_after_disconnect (w : World) : socket (this (disconnect w)) = None.
Proof. unfold disconnect. case_match; [reflexivity|assumption]. Qed.

(** X3. [disconnect()] is idempotent, and after it the manager has no
    transport: a second call changes nothing, and every [subscribe] call is
    rejected with the not-connected error without touching anything. *)
Theorem disconnect_is_idempotent
    (w : World) (instruments : option (list Instrument)) :
  socket (this (disconnect w)) = None
  /\ disconnect (disconnect w) = disconnect w
  /\ subscribe instruments (disconnect w)
     = (disconnect w, RejectedWith NotConnected).
Proof.
  pose proof (socket_after_disconnect w) as Hs.
  split; [exact Hs|]. split.
  - unfold disconnect at 1. rewrite Hs. reflexivity.
  - unfold subscribe, socket_is_open. rewrite Hs. reflexivity.
Qed.

(** ** Leaving the open state *)

(** X4. A manual [disconnect()] of an open connection is final: the
    heartbeat interval is cleared at once, the close event that follows
    schedules no reconnect, nothing is sent, and however long one waits no
    timer fires and no transport is made. *)
Theorem manual_disconnect_is_final (w : World) (i h : nat)
    (Hst : steady w i h) :
  let w1 := run [CallDisconnect; TransportClose i] w in
  run_enabled [CallDisconnect; TransportClose i] w = true
  /\ timers (disconnect w) = []
  /\ socket (this w1) = None
  /\ disconnectedManually (this w1) = true
  /\ sock_ready w1 i = Some CLOSED
  /\ timers w1 = []
  /\ creation_times w1 = creation_times w
  /\ List.filter is_send (since w w1) = []
  /\ forall n, elapse n w1 = set_now (now w1 + n) w1.
Proof.
  destruct Hst as [Hs Hr Hh (p & d & Ht)]. cbv zeta.
  unfold sock_ready in Hr.
  destruct (sockets w !! i) as [s|] eqn:Hlook; [|discriminate].
  cbn in Hr. injection Hr as Hr.
  destruct w as [m ss ts nh t tr]. destruct m. destruct s as [rs ps cs].
  cbn in *. subst.
  assert (Htimers : forall w', timers w' = [] ->
            forall n, elapse n w' = set_now (now w' + n) w')
    by (intros w' H n; apply elapse_no_timers, H).
  unfold disconnect, clearHeartBeat, remove_timer, ws_close, sock_ready. cbn.
  rewrite Hlook. cbn.
  destruct (decide (h <> h)) as [Hne|_]; [done|].
  unfold sock_ready. cbn. rewrite !list_lookup_alter_eq, Hlook. cbn.
  unfold onclose, clearHeartBeat, since. cbn.
  rewrite ?list_lookup_alter_eq, ?Hlook. cbn.
  destruct debug0; cbn; repeat split; try (apply Htimers; reflexivity);
    try (rewrite !list_lookup_alter_eq, Hlook; reflexivity).
  all: match goal with
       | |- context [take (?a - ?b) _] =>
           let n := surplus a b in replace (a - b) with n by lia
       end; reflexivity.
Qed.

Lemma steady_open_world : steady open_world 0 0.
Proof. split; try reflexivity. eexists _, _. reflexivity. Qed.

Lemma manual_disconnect_is_final_witness :
  steady open_world 0 0
  /\ timers (run [CallDisconnect; TransportClose 0] open_world) = []
  /\ socket (this (run [CallDisconnect; TransportClose 0] open_world)) = None.
Proof.
  split; [exact steady_open_world|].
  pose proof (manual_disconnect_is_final open_world 0 0 steady_open_world) as H.
  cbv zeta in H. split; apply H.
Defined.

Lemma since_of_app (w w' : World) (d : list (nat * Obs)) :
  trace w' = d ++ trace w -> since w w' = d.
Proof.
  intros H. unfold since. rewrite H, length_app.
  replace (length d + length (trace w) - length (trace w)) with (length d) by lia.
  apply take_app_length.
Qed.

(** X5. When an open connection drops without a manual disconnect and the
    counter is below the maximum, [onclose] clears the heartbeat, raises
    the counter by one and arms one backoff timer; nothing happens before
    the backoff is over, no frame is sent in between, and when it is over
    exactly one new transport is made, which [#socket] then names. *)
Theorem drop_schedules_one_reconnect (w : World) (i h : nat)
    (Hst : steady w i h)
    (Hmanual : disconnectedManually (this w) = false)
    (Hflag : socketConnecting (this w) = false)
    (Hbelow : currentReconnectAttempts (this w) < reconnectAttempts (this w)) :
  let backoff := timer_delay (reconnectInterval (this w)) in
  let w1 := fst (step (TransportClose i) w) in
  let w2 := elapse backoff w1 in
  heartBeatInterval (this w1) = None
  /\ timers w1 = [{| handle := nextHandle w; callback := ReconnectTimer;
                     due := now w + backoff |}]
  /\ (forall n, n < backoff -> elapse n w1 = set_now (now w + n) w1)
  /\ currentReconnectAttempts (this w2) = S (currentReconnectAttempts (this w))
  /\ socket (this w2) = Some (length (sockets w))
  /\ sock_ready w2 (length (sockets w)) = Some CONNECTING
  /\ timers w2 = []
  /\ List.filter is_new (since w w2) =
       [(now w + backoff, NewWebSocket (length (sockets w)) (webSocketURL (this w)))]
  /\ List.filter is_send (since w w2) = [].
Proof.
  destruct Hst as [Hs Hr Hh (p & d & Ht)]. cbv zeta.
  apply Nat.ltb_lt in Hbelow.
  set (backoff := timer_delay (reconnectInterval (this w))).
  assert (Hpos : 0 < backoff) by (unfold backoff, timer_delay; lia).
  set (w1 := fst (step (TransportClose i) w)).
  assert (H1 : heartBeatInterval (this w1) = None
               /\ timers w1 = [{| handle := nextHandle w; callback := ReconnectTimer;
                                  due := now w + backoff |}]
               /\ now w1 = now w
               /\ socketConnecting (this w1) = false
               /\ currentReconnectAttempts (this w1) = S (currentReconnectAttempts (this w))
               /\ length (sockets w1) = length (sockets w)
               /\ webSocketURL (this w1) = webSocketURL (this w)
               /\ exists d1, trace w1 = d1 ++ trace w
                             /\ List.filter is_new d1 = []
                             /\ List.filter is_send d1 = []).
  { unfold w1, backoff. clear w1 backoff Hpos.
    destruct w as [m ss ts nh t tr]. destruct m. cbn in *. subst.
    unfold onclose, clearHeartBeat, remove_timer, attemptReconnect. cbn.
    destruct (decide (h <> h)) as [Hne|_]; [done|].
    destruct debug0; cbn; rewrite Hbelow; cbn; rewrite ?length_alter;
      repeat split;
      first [eexists [_; _; _]; repeat split; reflexivity
            |eexists [_; _]; repeat split; reflexivity]. }
  destruct H1 as (Hhb & Ht1 & Hn1 & Hf1 & Hc1 & Hl1 & Hu1 & d1 & Htr1 & Hnew1 & Hsend1).
  clearbody w1.
  split; [exact Hhb|]. split; [exact Ht1|]. split.
  { intros n Hn. rewrite <- Hn1. apply elapse_idle. rewrite Ht1.
    repeat constructor. cbn. lia. }
  rewrite (elapse_fires_reconnect w1 (nextHandle w) backoff Hpos).
  2: { rewrite Ht1, Hn1. reflexivity. }
  set (w2 := connect true _).
  assert (H2 : currentReconnectAttempts (this w2) = currentReconnectAttempts (this w1)
               /\ socket (this w2) = Some (length (sockets w1))
               /\ sockets w2 = sockets w1 ++
                     [{| readyState := CONNECTING; promise := Pending; caught := true |}]
               /\ timers w2 = []
               /\ trace w2 = (now w1 + backoff,
                              NewWebSocket (length (sockets w1)) (webSocketURL (this w1)))
                             :: trace w1).
  { unfold w2, connect. cbn. rewrite Hf1. repeat split. }
  destruct H2 as (Hc2 & Hs2 & Hss2 & Ht2 & Htr2). clearbody w2.
  assert (Hsince : since w w2 =
            (now w + backoff, NewWebSocket (length (sockets w)) (webSocketURL (this w)))
            :: d1).
  { apply since_of_app. rewrite Htr2, Htr1, Hn1, Hl1, Hu1. reflexivity. }
  rewrite Hsince. cbn. rewrite Hnew1, Hsend1.
  repeat split; try congruence.
  unfold sock_ready. rewrite Hss2. rewrite lookup_app_r by lia.
  rewrite Hl1, Nat.sub_diag. reflexivity.
Qed.

Lemma drop_schedules_one_reconnect_witness :
  steady open_world 0 0
  /\ disconnectedManually (this open_world) = false
  /\ socketConnecting (this open_world) = false
  /\ currentReconnectAttempts (this open_world) < reconnectAttempts (this open_world)
  /\ List.filter is_send
       (since open_world
          (elapse (timer_delay (reconnectInterval (this open_world)))
             (fst (step (TransportClose 0) open_world)))) = [].
Proof.
  assert (Hlt : currentReconnectAttempts (this open_world)
                < reconnectAttempts (this open_world))
    by (apply Nat.ltb_lt; vm_compute; reflexivity).
  split; [exact steady_open_world|]. split; [reflexivity|]. split; [reflexivity|].
  split; [exact Hlt|].
  apply (drop_schedules_one_reconnect open_world 0 0 steady_open_world eq_refl eq_refl Hlt).
Defined.

(** ** Inbound dispatch in full *)

Lemma includes_true (kinds : list string) (t : option json) :
  includes kinds t = true <-> exists s, t = Some (JStr s) /\ In s kinds.
Proof.
  unfold includes. split.
  - destruct t as [[]|]; try discriminate. intros H.
    apply existsb_exists in H as (k & Hk & He). apply String.eqb_eq in He.
    subst. eauto.
  - intros (s & -> & Hs). apply existsb_exists. exists s. split; [exact Hs|].
    apply String.eqb_refl.
Qed.

Lemma read_t_throws (data : json) (e : JsError) :
  read_t data = inl e -> data = JNull.
Proof. destruct data; cbn; congruence. Qed.

(** X6. The message handler throws in exactly three cases: the text is not
    JSON, the text is the JSON [null] (reading [t] off it is a TypeError),
    or a market-data frame arrives while the data slot is still
    [undefined]. Every other frame makes it return normally. *)
Theorem onmessage_throws_exactly_when (r : ParseResult) (w : World) :
  snd (onmessage r w) <> Normal <->
  r = ParseFailure
  \/ r = Parsed JNull
  \/ exists data t,
       r = Parsed data /\ read_t data = inr t
       /\ includes ["tk"; "tf"; "df"; "dk"]%string t = true
       /\ onDataCallback (this w) = JsUndefined.
Proof.
  unfold onmessage. split.
  - destruct r as [|data]; [auto|].
    destruct (read_t data) as [e|t] eqn:Et.
    { intros _. right. left. f_equal. eapply read_t_throws, Et. }
    destruct (includes ["tk"; "tf"; "df"; "dk"]%string t) eqn:Ed.
    + destruct (onDataCallback (this w)) eqn:Ecb; cbn.
      * intros _. right. right. exists data, t. auto.
      * destruct (includes ["om"]%string t && truthy (onOrderCallback (this w))) eqn:Eo.
        -- apply andb_true_iff in Eo as [_ Eo].
           destruct (onOrderCallback (this w)); try discriminate. cbn. congruence.
        -- destruct (debug (this w)); cbn; congruence.
      * congruence.
    + cbn.
      destruct (includes ["om"]%string t && truthy (onOrderCallback (this w))) eqn:Eo.
      * apply andb_true_iff in Eo as [_ Eo].
        destruct (onOrderCallback (this w)); try discriminate. cbn. congruence.
      * destruct (debug (this w)); cbn; congruence.
  - intros [->|[->|(data & t & -> & Et & Ed & Ecb)]]; cbn; try discriminate.
    rewrite Et, Ed, Ecb. cbn. discriminate.
Qed.

(** X7. The message handler changes nothing of the manager but its trace,
    to which it adds at most one observation: a call of the registered data
    callback with the decoded frame, only for a frame whose [t] is one of
    the market-data kinds; or a call of the registered order callback, only
    for a frame whose [t] is ["om"]; or, in debug mode only, a log line. *)
Theorem onmessage_dispatch_is_sound (r : ParseResult) (w : World) :
  let w' := fst (onmessage r w) in
  this w' = this w /\ sockets w' = sockets w /\ timers w' = timers w
  /\ now w' = now w
  /\ (since w w' = []
      \/ exists o,
           since w w' = [(now w, o)]
           /\ match o with
              | DataCallback f data =>
                  r = Parsed data
                  /\ onDataCallback (this w) = JsFunction f
                  /\ exists kind,
                       read_t data = inr (Some (JStr kind))
                       /\ In kind ["tk"; "tf"; "df"; "dk"]%string
              | OrderCallback f data =>
                  r = Parsed data
                  /\ onOrderCallback (this w) = JsFunction f
                  /\ read_t data = inr (Some (JStr "om"))
              | ConsoleLog _ => debug (this w) = true
              | _ => False
              end).
Proof.
  cbv zeta. unfold onmessage.
  destruct r as [|data]; [rewrite since_self; auto 10|].
  destruct (read_t data) as [e|t] eqn:Et; [rewrite since_self; auto 10|].
  destruct (includes ["tk"; "tf"; "df"; "dk"]%string t) eqn:Ed.
  - apply includes_true in Ed as (kind & -> & Hk).
    destruct (onDataCallback (this w)) as [| |f] eqn:Ecb; cbn [andb not_null].
    + cbn. rewrite since_self. auto 10.
    + assert (Hom : includes ["om"]%string (Some (JStr kind)) = false).
      { cbn. rewrite orb_false_r. apply String.eqb_neq. intros ->.
        cbn in Hk. intuition discriminate. }
      rewrite Hom. cbn [andb]. destruct (debug (this w)) eqn:Edbg; cbn [fst].
      * rewrite since_emit. repeat split. right. eexists. split; [reflexivity|done].
      * rewrite since_self. auto 10.
    + cbn [call_slot fst]. rewrite since_emit. repeat split. right.
      eexists. split; [reflexivity|]. cbn. eauto 10.
  - cbn [andb].
    destruct (includes ["om"]%string t) eqn:Eo.
    + apply includes_true in Eo as (kind & -> & Hk).
      assert (kind = "om"%string) as -> by (cbn in Hk; intuition).
      destruct (onOrderCallback (this w)) as [| |g] eqn:Ecb; cbn [andb truthy].
      * destruct (debug (this w)) eqn:Edbg; cbn [fst].
        -- rewrite since_emit. repeat split. right. eexists. split; [reflexivity|done].
        -- rewrite since_self. auto 10.
      * destruct (debug (this w)) eqn:Edbg; cbn [fst].
        -- rewrite since_emit. repeat split. right. eexists. split; [reflexivity|done].
        -- rewrite since_self. auto 10.
      * cbn [call_slot fst]. rewrite since_emit. repeat split. right.
        eexists. split; [reflexivity|]. cbn. auto.
    + cbn [andb]. destruct (debug (this w)) eqn:Edbg; cbn [fst].
      * rewrite since_emit. repeat split. right. eexists. split; [reflexivity|done].
      * rewrite since_self. auto 10.
Qed.

(** X8. A callback slot holds one callback: registering again replaces the
    earlier one, which is not called any more. A market-data frame goes to
    the data callback registered last, an order frame to the order callback
    registered last, each exactly once. *)
Theorem last_registration_wins
    (w : World) (f g : nat) (data : json) (kind : string)
    (Ht : read_t data = inr (Some (JStr kind)))
    (Hkind : In kind ["tk"; "tf"; "df"; "dk"; "om"]%string) :
  let wd := run [CallOnData (JsFunction f); CallOnData (JsFunction g)] w in
  let wo := run [CallOnOrder (JsFunction f); CallOnOrder (JsFunction g)] wd in
  snd (onmessage (Parsed data) wo) = Normal
  /\ since wo (fst (onmessage (Parsed data) wo)) =
       [(now w, if String.eqb kind "om"
                then OrderCallback g data else DataCallback g data)].
Proof.
  cbv zeta. unfold onmessage. rewrite Ht. cbn in Hkind.
  destruct Hkind as [<-|[<-|[<-|[<-|[<-|[]]]]]]; cbn [includes existsb String.eqb
    Ascii.eqb Bool.eqb orb andb]; cbn; (split; [reflexivity|]);
    replace (S (length (trace w)) - length (trace w)) with 1 by lia;
    reflexivity.
Qed.

Lemma last_registration_wins_witness :
  read_t tk_frame = inr (Some (JStr "tk"))
  /\ In "tk"%string ["tk"; "tf"; "df"; "dk"; "om"]%string
  /\ snd (onmessage (Parsed tk_frame)
            (run [CallOnOrder (JsFunction 1); CallOnOrder (JsFunction 2)]
               (run [CallOnData (JsFunction 1); CallOnData (JsFunction 2)]
                    open_world))) = Normal.
Proof.
  split; [reflexivity|]. split; [left; reflexivity|].
  apply (last_registration_wins open_world 1 2 tk_frame "tk" eq_refl).
  left. reflexivity.
Defined.

(** X9. [onData(null)] switches the data callback off cleanly: the guard
    of the data branch is [!== null], so afterwards no frame that decodes to
    an object makes the handler throw and no data callback is called. (A
    slot never set is [undefined] and does throw on a market-data frame.) *)
Theorem onData_null_unregisters
    (w : World) (data : json) (t : option json)
    (Ht : read_t data = inr t) :
  let w0 := onData JsNull w in
  snd (onmessage (Parsed data) w0) = Normal
  /\ List.filter is_data_callback (since w0 (fst (onmessage (Parsed data) w0))) = [].
Proof.
  cbv zeta. unfold onmessage. rewrite Ht. cbn [onData upd_this this set_onDataCallback
    onDataCallback not_null]. rewrite andb_false_r.
  set (w0 := onData JsNull w).
  change (onOrderCallback (set_onDataCallback JsNull (this w)))
    with (onOrderCallback (this w0)).
  change (debug (set_onDataCallback JsNull (this w))) with (debug (this w0)).
  destruct (includes ["om"]%string t && truthy (onOrderCallback (this w0))) eqn:Eo.
  - apply andb_true_iff in Eo as [_ Eo].
    destruct (onOrderCallback (this w0)); try discriminate.
    cbn [call_slot fst snd]. rewrite since_emit. split; reflexivity.
  - destruct (debug (this w0)); cbn [fst snd].
    + rewrite since_emit. split; reflexivity.
    + rewrite since_self. split; reflexivity.
Qed.

Lemma onData_null_unregisters_witness :
  read_t tk_frame = inr (Some (JStr "tk"))
  /\ snd (onmessage (Parsed tk_frame) (onData JsNull open_world)) = Normal.
Proof.
  split; [reflexivity|].
  apply (onData_null_unregisters open_world tk_frame (Some (JStr "tk")) eq_refl).
Defined.

Lemma heartbeat_once_per_period_witness :
  0 < heartbeat_ms
  /\ socket (this open_world) = Some 0
  /\ sock_ready open_world 0 = Some OPEN
  /\ timers open_world =
       [{| handle := 0; callback := HeartBeatTimer heartbeat_ms;
           due := now open_world + heartbeat_ms |}]
  /\ trace (elapse (2 * heartbeat_ms) open_world) =
       rev (map (fun j => (now open_world + j * heartbeat_ms,
                           SocketSend 0 heartBeatData)) (seq 1 2))
       ++ trace open_world.
Proof.
  assert (Hp : 0 < heartbeat_ms) by (apply pos_by_computation; vm_compute; reflexivity).
  assert (Ht : timers open_world =
       [{| handle := 0; callback := HeartBeatTimer heartbeat_ms;
           due := now open_world + heartbeat_ms |}]) by (vm_compute; reflexivity).
  split; [exact Hp|]. split; [reflexivity|]. split; [reflexivity|].
  split; [exact Ht|].
  exact (heartbeat_once_per_period heartbeat_ms Hp 2 open_world 0 0 eq_refl eq_refl Ht).
Defined.

Lemma awaiting_connecting_world : awaiting connecting_world 0.
Proof. split; reflexivity. Qed.

Lemma disconnect_while_connecting_stops_witness :
  awaiting connecting_world 0
  /\ timers (run [CallDisconnect; TransportError 0; TransportClose 0]
                 connecting_world) = [].
Proof.
  split; [exact awaiting_connecting_world|].
  pose proof (disconnect_while_connecting_stops connecting_world 0
                awaiting_connecting_world) as H.
  cbv zeta in H. apply H.
Defined.

(** X12. [disconnect()] during the handshake does not lower the in-flight
    flag: a [connect()] called right after it is ignored (nothing is
    created, nothing changes). Once the aborted transport has reported its
    error and its close, the flag is down, no timer is pending, and
    [connect()] makes a transport again. *)
Theorem connect_is_ignored_until_the_abort_is_reported
    (w : World) (i : nat) (by_timer : bool)
    (Haw : awaiting w i)
    (Hflag : socketConnecting (this w) = true) :
  let w1 := disconnect w in
  let w2 := run [TransportError i; TransportClose i] w1 in
  connect by_timer w1 = w1
  /\ run_enabled [TransportError i; TransportClose i] w1 = true
  /\ socketConnecting (this w2) = false
  /\ timers w2 = []
  /\ creation_times (connect by_timer w2) = now w2 :: creation_times w2
  /\ socket (this (connect by_timer w2)) = Some (length (sockets w)).
Proof.
  destruct Haw as [Hs Hl Hr Hp Ht Hh Hm]. cbv zeta.
  unfold pending in Hp. unfold sock_ready in Hr.
  destruct (sockets w !! i) as [s|] eqn:Hlook; [|discriminate].
  cbn in Hr, Hp. injection Hr as Hr. injection Hp as Hp.
  destruct w as [m ss ts nh t tr]. destruct m. destruct s as [rs ps cs].
  cbn in *. subst.
  unfold disconnect, clearHeartBeat, ws_close, sock_ready. cbn. rewrite Hlook. cbn.
  unfold connect at 1. cbn. split; [reflexivity|].
  unfold onerror, onclose, clearHeartBeat, settle, sock_ready. cbn.
  rewrite !list_lookup_alter_eq, Hlook. cbn.
  destruct cs, debug0; cbn; rewrite ?list_lookup_alter_eq, ?Hlook; cbn;
    unfold connect, creation_times; cbn;
    rewrite ?length_alter; repeat split.
Qed.

Lemma connect_is_ignored_until_the_abort_is_reported_witness :
  awaiting connecting_world 0
  /\ socketConnecting (this connecting_world) = true
  /\ connect false (disconnect connecting_world) = disconnect connecting_world
  /\ socketConnecting
       (this (run [TransportError 0; TransportClose 0]
                  (disconnect connecting_world))) = false.
Proof.
  split; [exact awaiting_connecting_world|]. split; [reflexivity|].
  pose proof (connect_is_ignored_until_the_abort_is_reported connecting_world 0
                false awaiting_connecting_world eq_refl) as H.
  cbv zeta in H. split; apply H.
Defined.

(** ** A close event of a transport that is no longer the current one *)

(** X13. The close handler does not look at which transport closed. When a
    transport other than the current one reports its close (the old
    transport after [disconnect()] and a quick [connect()]), the heartbeat
    interval of the current, still open connection is cleared, so no
    heartbeat timer is left; and as [connect()] has lowered the manual flag,
    a reconnect is scheduled although the current transport is open. *)
Theorem close_of_an_old_transport_stops_the_heartbeat
    (w : World) (i j h : nat)
    (Hst : steady w i h)
    (Hother : j <> i)
    (Hmanual : disconnectedManually (this w) = false)
    (Hbelow : currentReconnectAttempts (this w) < reconnectAttempts (this w)) :
  let w1 := fst (step (TransportClose j) w) in
  socket (this w1) = Some i
  /\ sock_ready w1 i = Some OPEN
  /\ heartBeatInterval (this w1) = None
  /\ timers w1 = [{| handle := nextHandle w; callback := ReconnectTimer;
                     due := now w + timer_delay (reconnectInterval (this w)) |}]
  /\ forallb is_reconnect_timer (timers w1) = true.
Proof.
  destruct Hst as [Hs Hr Hh (p & d & Ht)]. cbv zeta.
  apply Nat.ltb_lt in Hbelow.
  assert (Hri : sock_ready (set_ready j CLOSED w) i = Some OPEN)
    by (rewrite sock_ready_set_ready_ne by done; exact Hr).
  destruct w as [m ss ts nh t tr]. destruct m. cbn in *. subst.
  unfold onclose, clearHeartBeat, remove_timer, attemptReconnect. cbn.
  destruct (decide (h <> h)) as [Hne|_]; [done|].
  destruct debug0; cbn; rewrite Hbelow; cbn; repeat split; exact Hri.
Qed.

Lemma steady_reopened_world : steady reopened_world 1 1.
Proof.
  split; try (vm_compute; reflexivity).
  eexists _, _. vm_compute. reflexivity.
Qed.

Lemma close_of_an_old_transport_stops_the_heartbeat_witness :
  run_enabled [CallDisconnect; CallConnect; TransportOpen 1; TransportClose 0]
    open_world = true
  /\ steady reopened_world 1 1
  /\ 0 <> 1
  /\ disconnectedManually (this reopened_world) = false
  /\ currentReconnectAttempts (this reopened_world)
     < reconnectAttempts (this reopened_world)
  /\ sock_ready (fst (step (TransportClose 0) reopened_world)) 1 = Some OPEN
  /\ heartBeatInterval (this (fst (step (TransportClose 0) reopened_world))) = None.
Proof.
  assert (Hlt : currentReconnectAttempts (this reopened_world)
                < reconnectAttempts (this reopened_world))
    by (apply Nat.ltb_lt; vm_compute; reflexivity).
  assert (Hne : 0 <> 1) by discriminate.
  split; [vm_compute; reflexivity|]. split; [exact steady_reopened_world|].
  split; [exact Hne|]. split; [vm_compute; reflexivity|]. split; [exact Hlt|].
  assert (Hm : disconnectedManually (this reopened_world) = false)
    by (vm_compute; reflexivity).
  pose proof (close_of_an_old_transport_stops_the_heartbeat reopened_world 1 0 1
                steady_reopened_world Hne Hm Hlt) as H.
  cbv zeta in H. split; apply H.
Defined.

(** ** The session details of the REST client *)

(** X14. The session a manager authenticates with, when it is built from
    [getSessionDetails()] of a REST client: [setSessionDetails(u, t)]
    stores [t] as token and [u] as account id but leaves the private user
    id as the constructor set it, so the authentication frame carries the
    constructor's user id, [u] as [actid] and [t] as [susertoken]. *)
Theorem manager_authenticates_with_the_session_details
    (uid0 pwd0 vc0 apikey0 totpkey0 u t name : string)
    (Hname : name <> ""%string) :
  let api := API.setSessionDetails (Some u) (Some t)
               (API.constructor uid0 pwd0 vc0 apikey0 totpkey0) in
  exists w0,
    constructor (Some name) (Some (API.getSessionDetails api)) = inr w0
    /\ List.filter is_send (trace (run [CallConnect; TransportOpen 0] w0)) =
         [(0, SocketSend 0
                (JObj [("t", JStr "c"); ("uid", JStr uid0); ("actid", JStr u);
                       ("susertoken", JStr t)]%string))].
Proof.
  cbv zeta. unfold constructor. cbv zeta.
  change (default "socket"%string (Some name)) with name.
  apply String.eqb_neq in Hname. rewrite Hname.
  eexists. split; [reflexivity|]. reflexivity.
Qed.

Lemma manager_authenticates_with_the_session_details_witness :
  "feed"%string <> ""%string
  /\ exists w0,
       constructor (Some "feed"%string)
         (Some (API.getSessionDetails
                  (API.setSessionDetails (Some "FA0002"%string) (Some "tok"%string)
                     (API.constructor "FA0001" "pw" "vc" "key" "totp")))) = inr w0
       /\ List.filter is_send (trace (run [CallConnect; TransportOpen 0] w0)) =
            [(0, SocketSend 0
                   (JObj [("t", JStr "c"); ("uid", JStr "FA0001");
                          ("actid", JStr "FA0002");
                          ("susertoken", JStr "tok")]%string))].
Proof.
  assert (Hn : "feed"%string <> ""%string) by discriminate.
  split; [exact Hn|].
  exact (manager_authenticates_with_the_session_details
           "FA0001" "pw" "vc" "key" "totp" "FA0002" "tok" "feed" Hn).
Defined.

(** ** The instrument catalogue *)

Lemma prop_key_present {A : Type} (key : string) (obj : list (string * A)) (v : A) :
  Instruments.prop key obj = Some v -> In key (map fst obj).
Proof.
  induction obj as [|[k x] rest IH]; cbn; [discriminate|].
  destruct (String.eqb key k) eqn:E.
  - apply String.eqb_eq in E. auto.
  - auto.
Qed.

Lemma find_matches_required (params : Instruments.Params)
    (scrip : Instruments.Scrip) (key : string) :
  Instruments.find_matches params scrip = true ->
  Instruments.falsy (Instruments.param key params) = false ->
  Instruments.prop key scrip = Instruments.param key params.
Proof.
  intros Hm Hf. unfold Instruments.find_matches in Hm.
  rewrite forallb_forall in Hm.
  destruct (Instruments.param key params) as [v|] eqn:Ep; [|discriminate].
  cbn in Hf.
  assert (Hin : In key (map fst params)).
  { unfold Instruments.param in Ep.
    destruct (Instruments.prop key params) eqn:E; [|discriminate].
    eapply prop_key_present, E. }
  specialize (Hm key Hin). rewrite Ep, Hf in Hm.
  apply bool_decide_eq_true in Hm. exact Hm.
Qed.

(** X15. [FindInstruments] refuses a query without exchange or symbol
    before it looks at any data. With both given and the data passed in, it
    never fails, and what it returns is exactly the rows that match: null
    when none does, the row itself when one does, and otherwise an array of
    two or more that is a rearrangement of the matching rows. Every row it
    returns comes from the data and has the exchange and the symbol asked
    for. *)
Theorem FindInstruments_returns_the_matching_rows
    (getFileData : option string -> JsError + list Instruments.Scrip)
    (sort : list Instruments.Scrip -> list Instruments.Scrip)
    (params : Instruments.Params) (data : list Instruments.Scrip)
    (Hsort : forall l, Permutation (sort l) l) :
  let matching := List.filter (Instruments.find_matches params) data in
  if Instruments.falsy (Instruments.param "Exchange" params)
     || Instruments.falsy (Instruments.param "Symbol" params)
  then forall fd,
         Instruments.FindInstruments getFileData sort params fd
         = inl (Error "Exchange not found or Symbol is missing")
  else exists r,
         Instruments.FindInstruments getFileData sort params (Some data) = inr r
         /\ Permutation (Instruments.found r) matching
         /\ match r with
            | Instruments.ReturnsNull => matching = []
            | Instruments.ReturnsOne s => matching = [s]
            | Instruments.ReturnsMany l => 2 <= length l
            end
         /\ forall s, In s (Instruments.found r) ->
              In s data
              /\ Instruments.prop "Exchange" s = Instruments.param "Exchange" params
              /\ Instruments.prop "Symbol" s = Instruments.param "Symbol" params.
Proof.
  cbv zeta. unfold Instruments.FindInstruments.
  destruct (Instruments.falsy (Instruments.param "Exchange" params)
            || Instruments.falsy (Instruments.param "Symbol" params)) eqn:Eg.
  - intros fd. reflexivity.
  - apply orb_false_elim in Eg as [Hex Hsy]. cbn [Instruments.file_data].
    set (matching := List.filter (Instruments.find_matches params) data).
    pose proof (Hsort matching) as Hp.
    assert (Hall : forall s, In s (sort matching) ->
              In s data
              /\ Instruments.prop "Exchange" s = Instruments.param "Exchange" params
              /\ Instruments.prop "Symbol" s = Instruments.param "Symbol" params).
    { intros s Hs. apply (Permutation_in _ Hp) in Hs.
      apply filter_In in Hs as [Hd Hm].
      split; [exact Hd|].
      split; apply find_matches_required; assumption. }
    destruct (sort matching) as [|a [|b rest]] eqn:Es.
    + eexists. split; [reflexivity|]. cbn.
      split; [exact Hp|]. split; [|intros s []].
      apply Permutation_nil in Hp. exact Hp.
    + eexists. split; [reflexivity|]. cbn.
      split; [exact Hp|]. split; [|exact Hall].
      apply Permutation_length_1_inv in Hp. exact Hp.
    + eexists. split; [reflexivity|]. cbn.
      split; [exact Hp|]. split; [lia|exact Hall].
Qed.

Lemma FindInstruments_returns_the_matching_rows_witness :
  (forall l : list Instruments.Scrip, Permutation (id l) l)
  /\ exists r,
       Instruments.FindInstruments no_file id nifty_put_query (Some sample_rows)
       = inr r
       /\ Permutation (Instruments.found r)
            (List.filter (Instruments.find_matches nifty_put_query) sample_rows)
       /\ match r with
          | Instruments.ReturnsNull =>
              List.filter (Instruments.find_matches nifty_put_query) sample_rows = []
          | Instruments.ReturnsOne s =>
              List.filter (Instruments.find_matches nifty_put_query) sample_rows = [s]
          | Instruments.ReturnsMany l => 2 <= length l
          end
       /\ forall s, In s (Instruments.found r) ->
            In s sample_rows
            /\ Instruments.prop "Exchange" s
               = Instruments.param "Exchange" nifty_put_query
            /\ Instruments.prop "Symbol" s
               = Instruments.param "Symbol" nifty_put_query.
Proof.
  assert (Hid : forall l : list Instruments.Scrip, Permutation (id l) l)
    by (intros l; reflexivity).
  split; [exact Hid|].
  exact (FindInstruments_returns_the_matching_rows no_file id nifty_put_query
           sample_rows Hid).
Defined.

(** The query above finds the one NIFTY put of the sample. *)
Lemma FindInstruments_sample :
  Instruments.FindInstruments no_file id nifty_put_query (Some sample_rows)
  = inr (Instruments.ReturnsOne
           [("Exchange", "NFO"); ("Symbol", "NIFTY"); ("Expiry", "2025-01-30");
            ("OptionType", "PE")]%string)
  /\ Instruments.GetExpiryDates no_file id
       [("Exchange", Some "NFO"); ("Symbol", Some "NIFTY")]%string
       (Some sample_rows)
     = inr [Some "2025-01-30"; Some "2025-02-27"]%string.
Proof. split; vm_compute; reflexivity. Qed.

Lemma unique_from_In (e : option string) (xs seen : list (option string)) :
  In e (Instruments.unique_from seen xs) <-> In e xs /\ ~ In e seen.
Proof.
  revert seen. induction xs as [|x rest IH]; intros seen; cbn.
  - tauto.
  - destruct (bool_decide (x ∈ seen)) eqn:E.
    + apply bool_decide_eq_true in E. apply list_elem_of_In in E.
      rewrite IH. split.
      * tauto.
      * intros [[<-|H] Hn]; [contradiction|tauto].
    + apply bool_decide_eq_false in E. rewrite list_elem_of_In in E.
      cbn. rewrite IH. cbn. split.
      * intros [<-|[H Hn]]; [tauto|]. split; [tauto|]. intros Hs. apply Hn. auto.
      * intros [[<-|H] Hn]; [tauto|].
        destruct (decide (x = e)) as [->|Hne]; [tauto|].
        right. split; [exact H|]. intros [->|Hs]; tauto.
Qed.

Lemma unique_from_NoDup (xs seen : list (option string)) :
  List.NoDup (Instruments.unique_from seen xs).
Proof.
  revert seen. induction xs as [|x rest IH]; intros seen; cbn.
  - constructor.
  - destruct (bool_decide (x ∈ seen)) eqn:E; [apply IH|].
    apply List.NoDup_cons; [|apply IH].
    rewrite unique_from_In. cbn. tauto.
Qed.

(** X16. [GetExpiryDates] on data passed in never fails and returns every
    expiry value of the rows that agree with the query on each of its keys,
    each value once. (Unlike [FindInstruments] it compares a key holding
    the empty string as well.) *)
Theorem GetExpiryDates_returns_each_expiry_once
    (getFileData : option string -> JsError + list Instruments.Scrip)
    (sort : list (option string) -> list (option string))
    (params : Instruments.Params) (data : list Instruments.Scrip)
    (Hsort : forall l, Permutation (sort l) l) :
  exists dates,
    Instruments.GetExpiryDates getFileData sort params (Some data) = inr dates
    /\ List.NoDup dates
    /\ forall e, In e dates <->
         exists s, In s data
                   /\ Instruments.expiry_matches params s = true
                   /\ Instruments.prop "Expiry" s = e.
Proof.
  unfold Instruments.GetExpiryDates. cbn [Instruments.file_data].
  eexists. split; [reflexivity|].
  set (expiries := map (Instruments.prop "Expiry")
                       (List.filter (Instruments.expiry_matches params) data)).
  pose proof (Hsort (Instruments.unique_from [] expiries)) as Hp.
  split.
  - eapply Permutation_NoDup; [symmetry; exact Hp|]. apply unique_from_NoDup.
  - intros e. split.
    + intros He. apply (Permutation_in _ Hp) in He.
      apply unique_from_In in He as [He _]. unfold expiries in He.
      apply in_map_iff in He as (s & Hs & Hin).
      apply filter_In in Hin as [Hd Hm]. eauto.
    + intros (s & Hd & Hm & Hs).
      apply (Permutation_in _ (Permutation_sym Hp)).
      apply unique_from_In. split; [|intros []].
      unfold expiries. apply in_map_iff. exists s. split; [exact Hs|].
      apply filter_In. auto.
Qed.

Lemma GetExpiryDates_returns_each_expiry_once_witness :
  (forall l : list (option string), Permutation (id l) l)
  /\ exists dates,
       Instruments.GetExpiryDates no_file id
         [("Exchange", Some "NFO"); ("Symbol", Some "NIFTY")]%string
         (Some sample_rows) = inr dates
       /\ List.NoDup dates
       /\ forall e, In e dates <->
            exists s, In s sample_rows
                      /\ Instruments.expiry_matches
                           [("Exchange", Some "NFO"); ("Symbol", Some "NIFTY")]%string
                           s = true
                      /\ Instruments.prop "Expiry" s = e.
Proof.
  assert (Hid : forall l : list (option string), Permutation (id l) l)
    by (intros l; reflexivity).
  split; [exact Hid|].
  exact (GetExpiryDates_returns_each_expiry_once no_file id
           [("Exchange", Some "NFO"); ("Symbol", Some "NIFTY")]%string
           sample_rows Hid).
Defined.
